(** * Budget store of budget-app (src/src/context/BudgetContext.tsx)

    Shallow embedding of the reducer [budgetReducer], of the operations
    exposed by [BudgetProvider] and of its derived queries, and of the pages
    that read the store.

    Modelling choices:
    - in the reducer and store part, a JS [number] amount or limit is a
      rational [Q] (exact arithmetic); the properties proved there do not
      depend on rounding;
    - module [Js] (at the end) models what does depend on the JS runtime:
      numbers as IEEE-754 binary64 doubles (Rocq's primitive [float]), plain
      objects with the [Object.prototype] properties they inherit, the [||]
      and [+] operators on JS values, [Array.prototype.sort], [Math.min] and
      [Object.entries]. [getExpensesByCategory] and the page computations
      are modelled there;
    - a JS array is a [list]; [map], [filter], [find], [some] are the
      list functions of the same behaviour;
    - [Date.now().toString()] is the decimal string of a clock value [now]
      passed to the operation that reads the clock. *)

From Stdlib Require Import Floats NArith Ascii.
From Stdlib Require Import QArith Qminmax ZArith String List Bool Lia
  DecimalString Sorted Permutation Lqa.
Import ListNotations.
Open Scope Q_scope.

(** ** Data model (lines 4-38) *)

Inductive TxType := income | expense.

Definition TxType_eqb (a b : TxType) : bool :=
  match a, b with
  | income, income | expense, expense => true
  | _, _ => false
  end.

Module Transaction.
Record t := mk {
  id : string;
  amount : Q;
  type : TxType;
  category : string;
  date : string;
  description : string
}.
End Transaction.

(** [Omit<Transaction, 'id'>], the argument of [addTransaction]. *)
Module TransactionInput.
Record t := mk {
  amount : Q;
  type : TxType;
  category : string;
  date : string;
  description : string
}.
End TransactionInput.

Module Budget.
Record t := mk {
  category : string;
  limit : Q;
  spent : Q
}.
End Budget.

Module Category.
Record t := mk {
  id : string;
  name : string;
  icon : string;
  color : string
}.
End Category.

(** [Omit<Category, 'id'>], the argument of [addCategory]. *)
Module CategoryInput.
Record t := mk {
  name : string;
  icon : string;
  color : string
}.
End CategoryInput.

Record BudgetState := mkState {
  transactions : list Transaction.t;
  budgets : list Budget.t;
  categories : list Category.t
}.

Inductive BudgetAction :=
| ADD_TRANSACTION (payload : Transaction.t)
| UPDATE_TRANSACTION (payload : Transaction.t)
| DELETE_TRANSACTION (payload : string)
| SET_BUDGET (payload : Budget.t)
| ADD_CATEGORY (payload : Category.t)
| LOAD_DATA (payload : BudgetState).

(** Lines 40-56. The icons are kept as their names; only their
    presence matters here. *)
Definition defaultCategories : list Category.t := [
  Category.mk "1" "Food & Dining" "plate" "#F59E0B";
  Category.mk "2" "Transportation" "car" "#3B82F6";
  Category.mk "3" "Shopping" "bags" "#EF4444";
  Category.mk "4" "Entertainment" "clapper" "#8B5CF6";
  Category.mk "5" "Bills & Utilities" "bolt" "#10B981";
  Category.mk "6" "Healthcare" "hospital" "#F97316";
  Category.mk "7" "Salary" "money" "#059669";
  Category.mk "8" "Freelance" "briefcase" "#0891B2";
  Category.mk "9" "Other" "package" "#6B7280"
].

Definition initialState : BudgetState :=
  mkState [] [] defaultCategories.

(** ** The reducer (lines 58-96) *)

Definition budgetReducer (state : BudgetState) (action : BudgetAction)
  : BudgetState :=
  match action with
  | ADD_TRANSACTION p =>
      mkState (transactions state ++ [p]) (budgets state) (categories state)
  | UPDATE_TRANSACTION p =>
      mkState
        (map (fun t => if String.eqb (Transaction.id t) (Transaction.id p)
                       then p else t) (transactions state))
        (budgets state) (categories state)
  | DELETE_TRANSACTION x =>
      mkState
        (filter (fun t => negb (String.eqb (Transaction.id t) x))
           (transactions state))
        (budgets state) (categories state)
  | SET_BUDGET p =>
      mkState (transactions state)
        (if existsb (fun b => String.eqb (Budget.category b) (Budget.category p))
              (budgets state)
         then map (fun b => if String.eqb (Budget.category b) (Budget.category p)
                            then p else b) (budgets state)
         else budgets state ++ [p])
        (categories state)
  | ADD_CATEGORY p =>
      mkState (transactions state) (budgets state) (categories state ++ [p])
  | LOAD_DATA p => p
  end.

(** ** Provider operations (lines 133-159) *)

(** [Date.now().toString()] for the clock reading [now]. *)
Definition now_toString (now : Z) : string :=
  NilZero.string_of_int (Z.to_int now).

Definition addTransaction (now : Z) (transaction : TransactionInput.t)
  (state : BudgetState) : BudgetState :=
  let newTransaction :=
    Transaction.mk (now_toString now)
      (TransactionInput.amount transaction) (TransactionInput.type transaction)
      (TransactionInput.category transaction) (TransactionInput.date transaction)
      (TransactionInput.description transaction) in
  budgetReducer state (ADD_TRANSACTION newTransaction).

Definition updateTransaction (transaction : Transaction.t) (state : BudgetState)
  : BudgetState :=
  budgetReducer state (UPDATE_TRANSACTION transaction).

Definition deleteTransaction (id : string) (state : BudgetState) : BudgetState :=
  budgetReducer state (DELETE_TRANSACTION id).

Definition setBudget (budget : Budget.t) (state : BudgetState) : BudgetState :=
  budgetReducer state (SET_BUDGET budget).

Definition addCategory (now : Z) (category : CategoryInput.t)
  (state : BudgetState) : BudgetState :=
  let newCategory :=
    Category.mk (now_toString now) (CategoryInput.name category)
      (CategoryInput.icon category) (CategoryInput.color category) in
  budgetReducer state (ADD_CATEGORY newCategory).

(** ** Derived queries (lines 161-194) *)

(** [xs.reduce((sum, t) => sum + t.amount, 0)] *)
Definition sum_amounts (xs : list Transaction.t) : Q :=
  fold_left (fun sum t => sum + Transaction.amount t) xs 0.

Definition is_type (k : TxType) (t : Transaction.t) : bool :=
  TxType_eqb (Transaction.type t) k.

Definition calculateTotalIncome (state : BudgetState) : Q :=
  sum_amounts (filter (is_type income) (transactions state)).

Definition calculateTotalExpenses (state : BudgetState) : Q :=
  sum_amounts (filter (is_type expense) (transactions state)).

Definition calculateBalance (state : BudgetState) : Q :=
  calculateTotalIncome state - calculateTotalExpenses state.

(** [Math.min((spent / budget.limit) * 100, 100)]; the division is [Q]'s,
    so only a positive [limit] gives the JS value. *)
Definition getBudgetProgress (state : BudgetState) (category : string) : Q :=
  match find (fun b => String.eqb (Budget.category b) category) (budgets state) with
  | None => 0
  | Some budget =>
      let spent :=
        sum_amounts
          (filter (fun t => is_type expense t
                            && String.eqb (Transaction.category t) category)
             (transactions state)) in
      Qmin ((spent / Budget.limit budget) * 100) 100
  end.

(** ** Sequences of transaction mutations *)

Inductive TxOp :=
| OpAdd (now : Z) (transaction : TransactionInput.t)
| OpUpdate (transaction : Transaction.t)
| OpDelete (id : string).

Definition apply_op (state : BudgetState) (op : TxOp) : BudgetState :=
  match op with
  | OpAdd now tr => addTransaction now tr state
  | OpUpdate tr => updateTransaction tr state
  | OpDelete x => deleteTransaction x state
  end.

Definition run_ops (state : BudgetState) (ops : list TxOp) : BudgetState :=
  fold_left apply_op ops state.

Definition tx_ids (state : BudgetState) : list string :=
  map Transaction.id (transactions state).

(** Every [addTransaction] of the sequence reads a clock value whose string
    is not yet an identifier of the list at that point. *)
Fixpoint clock_fresh (state : BudgetState) (ops : list TxOp) : bool :=
  match ops with
  | [] => true
  | op :: rest =>
      match op with
      | OpAdd now _ => negb (existsb (String.eqb (now_toString now)) (tx_ids state))
      | _ => true
      end && clock_fresh (apply_op state op) rest
  end.

(** Snapshots reachable from the seed by any mutation, including
    [LOAD_DATA] of a typed snapshot. *)
Inductive reachable : BudgetState -> Prop :=
| reach_init : reachable initialState
| reach_step s a : reachable s -> reachable (budgetReducer s a).

(** ** Loading the persisted snapshot (lines 117-127) *)

#[local] Set Warnings "-register-all".

(** A value produced by [JSON.parse]. *)
Inductive json :=
| JNull
| JBool (b : bool)
| JNum (n : Q)
| JStr (s : string)
| JArr (xs : list json)
| JObj (fields : list (string * json)).

(** Outcome of [JSON.parse(savedData)]: it throws or returns a value. *)
Inductive ParseOutcome := Throws | Parsed (v : json).

(** Property read on a parsed object; the last duplicate key wins, as
    with [JSON.parse]. *)
Fixpoint json_field (fs : list (string * json)) (k : string) : option json :=
  match fs with
  | [] => None
  | (k', v) :: r =>
      match json_field r k with
      | Some w => Some w
      | None => if String.eqb k' k then Some v else None
      end
  end.

Definition obind {A B} (o : option A) (f : A -> option B) : option B :=
  match o with Some a => f a | None => None end.

Notation "'let?' x ':=' e 'in' f" := (obind e (fun x => f))
  (at level 200, x name, e at level 100, f at level 200).

Definition as_str (o : option json) : option string :=
  match o with Some (JStr s) => Some s | _ => None end.

Definition as_num (o : option json) : option Q :=
  match o with Some (JNum n) => Some n | _ => None end.

Definition as_type (o : option json) : option TxType :=
  match o with
  | Some (JStr s) =>
      if String.eqb s "income" then Some income
      else if String.eqb s "expense" then Some expense else None
  | _ => None
  end.

Definition decode_transaction (v : json) : option Transaction.t :=
  match v with
  | JObj fs =>
      let? i := as_str (json_field fs "id") in
      let? a := as_num (json_field fs "amount") in
      let? k := as_type (json_field fs "type") in
      let? c := as_str (json_field fs "category") in
      let? d := as_str (json_field fs "date") in
      let? s := as_str (json_field fs "description") in
      Some (Transaction.mk i a k c d s)
  | _ => None
  end.

Definition decode_budget (v : json) : option Budget.t :=
  match v with
  | JObj fs =>
      let? c := as_str (json_field fs "category") in
      let? l := as_num (json_field fs "limit") in
      let? s := as_num (json_field fs "spent") in
      Some (Budget.mk c l s)
  | _ => None
  end.

Definition decode_category (v : json) : option Category.t :=
  match v with
  | JObj fs =>
      let? i := as_str (json_field fs "id") in
      let? n := as_str (json_field fs "name") in
      let? ic := as_str (json_field fs "icon") in
      let? c := as_str (json_field fs "color") in
      Some (Category.mk i n ic c)
  | _ => None
  end.

Fixpoint decode_all {A} (f : json -> option A) (xs : list json) : option (list A) :=
  match xs with
  | [] => Some []
  | x :: r => let? a := f x in let? l := decode_all f r in Some (a :: l)
  end.

Definition as_arr {A} (f : json -> option A) (o : option json) : option (list A) :=
  match o with Some (JArr xs) => decode_all f xs | _ => None end.

(** The parsed value has the shape of a [BudgetState] snapshot. *)
Definition decode_state (v : json) : option BudgetState :=
  match v with
  | JObj fs =>
      let? ts := as_arr decode_transaction (json_field fs "transactions") in
      let? bs := as_arr decode_budget (json_field fs "budgets") in
      let? cs := as_arr decode_category (json_field fs "categories") in
      Some (mkState ts bs cs)
  | _ => None
  end.

(** The provider's state: the typed seed, or whatever [LOAD_DATA] stored,
    which is the parsed value itself (the reducer returns the payload
    unchecked). *)
Inductive ProviderState :=
| Typed (s : BudgetState)
| Raw (v : json).

(** The snapshot the provider's state denotes, when it has that shape. *)
Definition provider_snapshot (ps : ProviderState) : option BudgetState :=
  match ps with
  | Typed s => Some s
  | Raw v => decode_state v
  end.

(** Whether [state.transactions.filter(...)], the first access of every
    query (e.g. [calculateTotalIncome]), runs without a [TypeError]:
    reading a property of [null] throws, and so does calling [filter] on
    [undefined] or on a non-array. *)
Definition transactions_filter_ok (ps : ProviderState) : bool :=
  match ps with
  | Typed _ => true
  | Raw (JObj fs) =>
      match json_field fs "transactions" with Some (JArr _) => true | _ => false end
  | Raw _ => false
  end.

Definition load_error_log : string := "Error loading saved data:".

(** The load effect: [savedData] is [localStorage.getItem('budgetData')]
    ([None] for [null]); [JSON_parse] is the outcome of [JSON.parse].
    Returns the provider's state and the lines written by [console.error]. *)
Definition load_effect (savedData : option string)
  (JSON_parse : string -> ParseOutcome) : ProviderState * list string :=
  match savedData with
  | None => (Typed initialState, [])
  | Some s =>
      if String.eqb s "" then (Typed initialState, [])
      else match JSON_parse s with
           | Throws => (Typed initialState, [load_error_log])
           | Parsed parsedData => (Raw parsedData, [])
           end
  end.

(** * Properties *)

(** ** Helper lemmas on the list functions of the reducer *)

Lemma map_id_when_no_match {A} (f : A -> A) (P : A -> bool) (l : list A) :
  (forall x, In x l -> P x = false) ->
  map (fun x => if P x then f x else x) l = l.
Proof.
  induction l as [|x r IH]; intros H; simpl; [reflexivity|].
  rewrite (H x (or_introl eq_refl)), IH; [reflexivity|].
  intros y Hy; apply H; right; exact Hy.
Qed.

Lemma filter_all_true {A} (P : A -> bool) (l : list A) :
  (forall x, In x l -> P x = true) -> filter P l = l.
Proof.
  induction l as [|x r IH]; intros H; simpl; [reflexivity|].
  rewrite (H x (or_introl eq_refl)), IH; [reflexivity|].
  intros y Hy; apply H; right; exact Hy.
Qed.

(** ** C4 *)

(** C4: in every snapshot (in particular every reachable one),
    [calculateBalance] is [calculateTotalIncome] minus
    [calculateTotalExpenses]. *)
Theorem balance_is_income_minus_expenses (state : BudgetState) :
  calculateBalance state = calculateTotalIncome state - calculateTotalExpenses state.
Proof. reflexivity. Qed.

(** ** C5 *)

(** C5: [addTransaction] appends exactly one transaction at the end of the
    list; its amount, type, category, date and description are those of the
    input, and its id is the clock string [Date.now().toString()]. *)
Theorem addTransaction_appends_input (now : Z) (input : TransactionInput.t)
  (state : BudgetState) :
  exists t,
    transactions (addTransaction now input state) = transactions state ++ [t] /\
    length (transactions (addTransaction now input state)) =
      S (length (transactions state)) /\
    Transaction.amount t = TransactionInput.amount input /\
    Transaction.type t = TransactionInput.type input /\
    Transaction.category t = TransactionInput.category input /\
    Transaction.date t = TransactionInput.date input /\
    Transaction.description t = TransactionInput.description input /\
    Transaction.id t = now_toString now.
Proof.
  eexists; split; [reflexivity|]; split.
  - simpl; rewrite length_app; simpl; lia.
  - repeat split.
Qed.

(** ** C6 *)

(** C6: when no transaction has the payload's identifier, both
    [updateTransaction] and [deleteTransaction] return the snapshot
    unchanged (they are total functions: no error is raised). *)
Theorem update_delete_missing_id_noop (state : BudgetState) (p : Transaction.t) :
  (forall t, In t (transactions state) -> Transaction.id t <> Transaction.id p) ->
  updateTransaction p state = state /\
  deleteTransaction (Transaction.id p) state = state.
Proof.
  intros H; destruct state as [ts bs cs]; unfold updateTransaction,
    deleteTransaction; simpl in *; split.
  - rewrite (map_id_when_no_match (fun _ => p)
              (fun t => String.eqb (Transaction.id t) (Transaction.id p)));
      [reflexivity|].
    intros x Hx; apply String.eqb_neq, H, Hx.
  - rewrite filter_all_true; [reflexivity|].
    intros x Hx; apply negb_true_iff, String.eqb_neq, H, Hx.
Qed.

Definition ex_tx (i : string) (a : Q) (k : TxType) (c : string) : Transaction.t :=
  Transaction.mk i a k c "2024-01-10" "Lunch".

Lemma update_delete_missing_id_noop_witness :
  let st := mkState [ex_tx "1" 500 expense "Food & Dining"] [] defaultCategories in
  updateTransaction (ex_tx "2" 7 income "Salary") st = st /\
  deleteTransaction "2" st = st.
Proof.
  apply (update_delete_missing_id_noop _ (ex_tx "2" 7 income "Salary")).
  intros t Ht; simpl in Ht; destruct Ht as [<-|[]]; simpl; discriminate.
Defined.

(** ** C9 *)

(** C9: each mutation leaves the components it does not target unchanged. *)
Theorem mutations_frame (state : BudgetState) (now : Z)
  (input : TransactionInput.t) (tr : Transaction.t) (x : string)
  (b : Budget.t) (c : CategoryInput.t) :
  (budgets (addTransaction now input state) = budgets state /\
   categories (addTransaction now input state) = categories state) /\
  (budgets (updateTransaction tr state) = budgets state /\
   categories (updateTransaction tr state) = categories state) /\
  (budgets (deleteTransaction x state) = budgets state /\
   categories (deleteTransaction x state) = categories state) /\
  (transactions (setBudget b state) = transactions state /\
   categories (setBudget b state) = categories state) /\
  (transactions (addCategory now c state) = transactions state /\
   budgets (addCategory now c state) = budgets state).
Proof. repeat split. Qed.

(** ** C10 *)

Definition id_is (x : string) (t : Transaction.t) : bool :=
  String.eqb (Transaction.id t) x.

(** C10: [updateTransaction] replaces every transaction carrying the
    payload's identifier, position by position, and [deleteTransaction]
    removes every transaction with the identifier; the transactions with
    other identifiers are kept in their original relative order. *)
Theorem update_delete_all_matches (state : BudgetState) (p : Transaction.t)
  (x : string) :
  let ts := transactions state in
  let us := transactions (updateTransaction p state) in
  let ds := transactions (deleteTransaction x state) in
  (length us = length ts /\
   (forall i t, nth_error ts i = Some t ->
      nth_error us i = Some (if id_is (Transaction.id p) t then p else t)) /\
   filter (fun t => negb (id_is (Transaction.id p) t)) us =
     filter (fun t => negb (id_is (Transaction.id p) t)) ts) /\
  ((forall t, In t ds -> Transaction.id t <> x) /\
   ds = filter (fun t => negb (id_is x t)) ts).
Proof.
  destruct state as [ts bs cs]; cbv zeta; simpl; unfold id_is.
  split; [split; [|split]|split].
  - apply length_map.
  - intros i t Hi; rewrite nth_error_map, Hi; reflexivity.
  - induction ts as [|t r IH]; simpl; [reflexivity|].
    destruct (String.eqb (Transaction.id t) (Transaction.id p)) eqn:E; simpl.
    + rewrite String.eqb_refl; simpl; exact IH.
    + rewrite E; simpl; f_equal; exact IH.
  - intros t Ht; apply filter_In in Ht as [_ Ht].
    apply negb_true_iff, String.eqb_neq in Ht; exact Ht.
  - reflexivity.
Qed.

(** ** C3 *)

Section Upsert.

Definition same_cat (c : string) (b : Budget.t) : bool :=
  String.eqb (Budget.category b) c.

Lemma set_budgets_eq (state : BudgetState) (p : Budget.t) :
  budgets (setBudget p state) =
  if existsb (same_cat (Budget.category p)) (budgets state)
  then map (fun b => if same_cat (Budget.category p) b then p else b) (budgets state)
  else budgets state ++ [p].
Proof. reflexivity. Qed.

Lemma filter_same_cat_none (c : string) (l : list Budget.t) :
  ~ In c (map Budget.category l) -> filter (same_cat c) l = [].
Proof.
  induction l as [|b r IH]; intros H; simpl; [reflexivity|].
  unfold same_cat at 1; destruct (String.eqb_spec (Budget.category b) c) as [E|E].
  - exfalso; apply H; left; exact E.
  - apply IH; intros Hr; apply H; right; exact Hr.
Qed.

Lemma existsb_same_cat_false (c : string) (l : list Budget.t) :
  existsb (same_cat c) l = false -> ~ In c (map Budget.category l).
Proof.
  intros H Hin; apply in_map_iff in Hin as [b [Eb Hb]].
  assert (existsb (same_cat c) l = true) as T.
  { apply existsb_exists; exists b; split; [exact Hb|].
    apply String.eqb_eq; exact Eb. }
  congruence.
Qed.

Lemma map_replace_no_match (p : Budget.t) (l : list Budget.t) :
  ~ In (Budget.category p) (map Budget.category l) ->
  map (fun b => if same_cat (Budget.category p) b then p else b) l = l.
Proof.
  intros H; apply map_id_when_no_match; intros x Hx.
  apply String.eqb_neq; intros E; apply H, in_map_iff; exists x; auto.
Qed.

Lemma map_replace_category (p : Budget.t) (l : list Budget.t) :
  map Budget.category
    (map (fun b => if same_cat (Budget.category p) b then p else b) l) =
  map Budget.category l.
Proof.
  induction l as [|b r IH]; simpl; [reflexivity|].
  unfold same_cat at 1; destruct (String.eqb_spec (Budget.category b) (Budget.category p))
    as [E|E]; simpl; rewrite IH; [rewrite E|]; reflexivity.
Qed.

(** With at most one entry per category, [setBudget] keeps it so. *)
Lemma setBudget_nodup (state : BudgetState) (p : Budget.t) :
  NoDup (map Budget.category (budgets state)) ->
  NoDup (map Budget.category (budgets (setBudget p state))).
Proof.
  intros H; rewrite set_budgets_eq.
  destruct (existsb _ _) eqn:E.
  - rewrite map_replace_category; exact H.
  - apply existsb_same_cat_false in E.
    rewrite map_app; simpl.
    apply NoDup_app; [exact H | constructor; [intros []|constructor] |].
    intros x Hx [<-|[]]; exact (E Hx).
Qed.

(** If [l = l1 ++ old :: l2] has one entry per category, then replacing the
    entries of [old]'s category touches only [old]. *)
Lemma map_replace_in_place (p old : Budget.t) (l1 l2 : list Budget.t) :
  NoDup (map Budget.category (l1 ++ old :: l2)) ->
  Budget.category old = Budget.category p ->
  map (fun b => if same_cat (Budget.category p) b then p else b) (l1 ++ old :: l2) =
  l1 ++ p :: l2.
Proof.
  intros H E; rewrite map_app in H; simpl in H.
  apply NoDup_remove in H as [H1 H2].
  rewrite map_app; simpl.
  unfold same_cat at 2; rewrite E, String.eqb_refl.
  rewrite !map_replace_no_match; [reflexivity| |];
    rewrite <- E; intros Hin; apply H2, in_app_iff; auto.
Qed.

(** After [setBudget p] on a list with one entry per category, exactly one
    entry has [p]'s category, and it is [p]. *)
Lemma setBudget_single (state : BudgetState) (p : Budget.t) :
  NoDup (map Budget.category (budgets state)) ->
  filter (same_cat (Budget.category p)) (budgets (setBudget p state)) = [p].
Proof.
  intros H; rewrite set_budgets_eq.
  destruct (existsb _ _) eqn:E.
  - apply existsb_exists in E as [old [Hin Ho]].
    apply in_split in Hin as [l1 [l2 Hl]]; rewrite Hl in H |- *.
    unfold same_cat in Ho; apply String.eqb_eq in Ho.
    rewrite map_replace_in_place by assumption.
    rewrite map_app in H; simpl in H; apply NoDup_remove in H as [_ H2].
    rewrite filter_app; simpl.
    unfold same_cat at 2; rewrite String.eqb_refl.
    rewrite !filter_same_cat_none; [reflexivity| |];
      rewrite <- Ho; intros Hc; apply H2, in_app_iff; auto.
  - apply existsb_same_cat_false in E.
    rewrite filter_app, filter_same_cat_none by exact E; simpl.
    unfold same_cat; rewrite String.eqb_refl; reflexivity.
Qed.

End Upsert.

(** C3: [setBudget] is an upsert keyed on the category: on a budgets list
    with at most one entry per category, two calls with the same category
    leave exactly one entry for it, the second budget; a single call
    appends when the category is absent and replaces the entry in place
    when it is present; the one-entry-per-category property is kept. *)
Theorem setBudget_upsert (state : BudgetState) (b1 b2 : Budget.t) :
  NoDup (map Budget.category (budgets state)) ->
  Budget.category b1 = Budget.category b2 ->
  filter (fun b => String.eqb (Budget.category b) (Budget.category b2))
    (budgets (setBudget b2 (setBudget b1 state))) = [b2] /\
  (existsb (fun b => String.eqb (Budget.category b) (Budget.category b1))
     (budgets state) = false ->
   budgets (setBudget b1 state) = budgets state ++ [b1]) /\
  (forall l1 old l2, budgets state = l1 ++ old :: l2 ->
   Budget.category old = Budget.category b1 ->
   budgets (setBudget b1 state) = l1 ++ b1 :: l2) /\
  NoDup (map Budget.category (budgets (setBudget b1 state))).
Proof.
  intros H Ec; split; [|split; [|split]].
  - apply (setBudget_single (setBudget b1 state) b2), setBudget_nodup, H.
  - intros E; rewrite set_budgets_eq; unfold same_cat; rewrite E; reflexivity.
  - intros l1 old l2 Hl Eo.
    assert (existsb (same_cat (Budget.category b1)) (budgets state) = true) as T.
    { apply existsb_exists; exists old; split.
      - rewrite Hl; apply in_app_iff; right; left; reflexivity.
      - apply String.eqb_eq; exact Eo. }
    rewrite set_budgets_eq, T, Hl; rewrite Hl in H.
    apply map_replace_in_place; assumption.
  - apply setBudget_nodup, H.
Qed.

Definition ex_budget (c : string) (l : Q) (s : Q) : Budget.t := Budget.mk c l s.

Lemma setBudget_upsert_witness :
  let st := mkState [] [ex_budget "Shopping" 200 0; ex_budget "Food & Dining" 800 0]
              defaultCategories in
  filter (fun b => String.eqb (Budget.category b) "Food & Dining")
    (budgets (setBudget (ex_budget "Food & Dining" 1500 0)
                (setBudget (ex_budget "Food & Dining" 1000 500) st))) =
    [ex_budget "Food & Dining" 1500 0] /\
  NoDup (map Budget.category (budgets st)).
Proof.
  split.
  - apply (setBudget_upsert _ (ex_budget "Food & Dining" 1000 500)
             (ex_budget "Food & Dining" 1500 0)); [|reflexivity].
    simpl; constructor; [simpl; intros [H|[]]; discriminate|].
    constructor; [intros []|constructor].
  - simpl; constructor; [simpl; intros [H|[]]; discriminate|].
    constructor; [intros []|constructor].
Defined.

(** ** Sums of amounts *)

(** The spending of one category, recomputed from the transaction list
    (the [filter]/[reduce] of [getBudgetProgress]). *)
Definition spentForCategory (state : BudgetState) (category : string) : Q :=
  sum_amounts
    (filter (fun t => is_type expense t && String.eqb (Transaction.category t) category)
       (transactions state)).



Lemma filter_filter_andb {A} (P Q : A -> bool) (xs : list A) :
  filter Q (filter P xs) = filter (fun x => P x && Q x) xs.
Proof.
  induction xs as [|x r IH]; simpl; [reflexivity|].
  destruct (P x); simpl; [destruct (Q x)|]; rewrite ?IH; reflexivity.
Qed.

(** ** C1 *)


Definition food_budget_state (expenses : list Q) : BudgetState :=
  mkState (map (fun a => ex_tx "1" a expense "Food & Dining") expenses)
    [ex_budget "Food & Dining" 1000 500] defaultCategories.

(** The worked example of the spec: 500 spent of 1000 gives 50; a further
    600 gives 100, clamped from 110. *)
Example budgetProgress_example_50 :
  getBudgetProgress (food_budget_state [500]) "Food & Dining" == 50.
Proof. reflexivity. Qed.

Example budgetProgress_example_clamped :
  getBudgetProgress (food_budget_state [500; 600]) "Food & Dining" == 100.
Proof. reflexivity. Qed.



(** ** C7 *)

Definition ex_input (a : Q) : TransactionInput.t :=
  TransactionInput.mk a expense "Food & Dining" "2024-01-10" "Lunch".

(** C7 (as stated, refuted): two [addTransaction] calls within the same
    millisecond read the same [Date.now()] and give both transactions the
    identifier ["1700000000000"]. *)
Lemma tx_ids_collision_counterexample :
  ~ NoDup (tx_ids (run_ops initialState
                     [OpAdd 1700000000000 (ex_input 500);
                      OpAdd 1700000000000 (ex_input 600)])).
Proof.
  intros H; vm_compute in H.
  inversion H as [|x l Hx _]; apply Hx; left; reflexivity.
Qed.

Lemma update_keeps_ids (p : Transaction.t) (ts : list Transaction.t) :
  map Transaction.id
    (map (fun t => if String.eqb (Transaction.id t) (Transaction.id p) then p else t) ts) =
  map Transaction.id ts.
Proof.
  induction ts as [|t r IH]; simpl; [reflexivity|].
  destruct (String.eqb_spec (Transaction.id t) (Transaction.id p)) as [E|E];
    simpl; rewrite IH; [rewrite E|]; reflexivity.
Qed.

Lemma filter_keeps_nodup_ids (P : Transaction.t -> bool) (ts : list Transaction.t) :
  NoDup (map Transaction.id ts) -> NoDup (map Transaction.id (filter P ts)).
Proof.
  induction ts as [|t r IH]; intros H; simpl; [constructor|].
  inversion H as [|? ? Hn Hr]; subst.
  destruct (P t); simpl; [constructor|]; auto.
  intros Hin; apply in_map_iff in Hin as [u [Eu Hu]].
  apply Hn, in_map_iff; exists u; split; [exact Eu|].
  apply filter_In in Hu as [Hu _]; exact Hu.
Qed.

Lemma apply_op_nodup (state : BudgetState) (op : TxOp) :
  NoDup (tx_ids state) ->
  match op with
  | OpAdd now _ => negb (existsb (String.eqb (now_toString now)) (tx_ids state)) = true
  | _ => True
  end ->
  NoDup (tx_ids (apply_op state op)).
Proof.
  unfold tx_ids; intros H Hf; destruct op as [now tr|tr|x]; simpl.
  - rewrite map_app; simpl.
    apply NoDup_app; [exact H|constructor; [intros []|constructor]|].
    intros y Hy [<-|[]].
    apply negb_true_iff in Hf.
    assert (existsb (String.eqb (now_toString now)) (map Transaction.id (transactions state))
            = true) as T by (apply existsb_exists; exists (now_toString now);
                             split; [exact Hy|apply String.eqb_refl]).
    congruence.
  - rewrite update_keeps_ids; exact H.
  - apply filter_keeps_nodup_ids, H.
Qed.

(** C7 (amended): from a snapshot whose transaction identifiers are unique
    (the seed has no transactions), any sequence of [addTransaction],
    [updateTransaction] and [deleteTransaction] keeps them unique, provided
    each [addTransaction] reads a clock value whose string is not already an
    identifier of the list. *)
Theorem tx_ids_unique_if_clock_fresh (state : BudgetState) (ops : list TxOp) :
  NoDup (tx_ids state) ->
  clock_fresh state ops = true ->
  NoDup (tx_ids (run_ops state ops)).
Proof.
  revert state; induction ops as [|op rest IH]; intros state H Hf; [exact H|].
  simpl in Hf; apply andb_true_iff in Hf as [Hop Hrest].
  unfold run_ops; simpl; apply IH; [|exact Hrest].
  apply apply_op_nodup; [exact H|].
  destruct op; [exact Hop|exact I|exact I].
Qed.

Definition ex_ops : list TxOp :=
  [OpAdd 1700000000000 (ex_input 500);
   OpAdd 1700000000001 (ex_input 600);
   OpUpdate (ex_tx "1700000000000" 450 expense "Food & Dining");
   OpDelete "1700000000001";
   OpAdd 1700000000002 (ex_input 70)].

Lemma tx_ids_unique_if_clock_fresh_witness :
  clock_fresh initialState ex_ops = true /\
  NoDup (tx_ids (run_ops initialState ex_ops)).
Proof.
  split; [vm_compute; reflexivity|].
  apply tx_ids_unique_if_clock_fresh; [constructor|vm_compute; reflexivity].
Defined.

(** ** C8 *)

(** C8 (as stated, refuted): the stored text ["null"] is valid JSON, so
    [JSON.parse] returns [null] without throwing. The value has no snapshot
    shape, yet it replaces the seed, nothing is logged, and
    [state.transactions.filter] then throws. *)
Lemma load_parseable_non_snapshot_counterexample :
  let r := load_effect (Some "null"%string)
             (fun s => if String.eqb s "null" then Parsed JNull else Throws) in
  decode_state JNull = None /\
  fst r = Raw JNull /\ fst r <> Typed initialState /\ snd r = [] /\
  transactions_filter_ok (fst r) = false.
Proof.
  repeat split; discriminate.
Qed.

(** C8 (amended): the seed has nine categories, no transactions and no
    budgets. With no stored value or an empty one, the seed is kept. When
    [JSON.parse] throws, the seed is kept and the error is logged once.
    Whatever value [JSON.parse] returns replaces the state wholesale, with
    nothing logged: a well-formed snapshot replaces the seed, categories
    included. *)
Theorem load_effect_spec (savedData : option string)
  (JSON_parse : string -> ParseOutcome) :
  length (categories initialState) = 9%nat /\
  transactions initialState = [] /\ budgets initialState = [] /\
  (savedData = None \/ savedData = Some ""%string ->
   load_effect savedData JSON_parse = (Typed initialState, [])) /\
  (forall s, savedData = Some s -> s <> ""%string -> JSON_parse s = Throws ->
   load_effect savedData JSON_parse = (Typed initialState, [load_error_log])) /\
  (forall s v, savedData = Some s -> s <> ""%string -> JSON_parse s = Parsed v ->
   load_effect savedData JSON_parse = (Raw v, []) /\
   provider_snapshot (Raw v) = decode_state v).
Proof.
  split; [reflexivity|split; [reflexivity|split; [reflexivity|split; [|split]]]].
  - intros [->| ->]; reflexivity.
  - intros s -> Hs Hp; simpl.
    apply String.eqb_neq in Hs; rewrite Hs, Hp; reflexivity.
  - intros s v -> Hs Hp; simpl.
    apply String.eqb_neq in Hs; rewrite Hs, Hp; split; reflexivity.
Qed.

(** ** Reports page (src/src/pages/Reports.tsx) *)

Inductive TimeRange := days7 | days30 | days90 | year1.

(** The [daysAgo] table of lines 20-25. *)
Definition daysAgo (timeRange : TimeRange) : Q :=
  match timeRange with days7 => 7 | days30 => 30 | days90 => 90 | year1 => 365 end.

Section ReportsPage.

(** [new Date(s).getTime()] ([None] for an Invalid Date, whose comparisons
    are all false) and [now.getTime()], from the JS runtime. *)
Variable date_ms : string -> option Q.
Variable now_ms : Q.

(** Lines 18-30. *)
Definition getFilteredTransactions (state : BudgetState) (timeRange : TimeRange)
  : list Transaction.t :=
  let cutoffDate := now_ms - daysAgo timeRange * 24 * 60 * 60 * 1000 in
  filter (fun t => match date_ms (Transaction.date t) with
                   | Some d => Qle_bool cutoffDate d
                   | None => false
                   end) (transactions state).

End ReportsPage.

(** X8: a shorter time range shows exactly the transactions of a longer
    one that fall in the shorter window, in the same order. In particular
    the last 7 days are a sublist of the last 30 days, which are a sublist
    of the last 90 days, which are a sublist of the last year. *)
Theorem filtered_transactions_monotone date_ms now_ms state (r1 r2 : TimeRange) :
  daysAgo r1 <= daysAgo r2 ->
  getFilteredTransactions date_ms now_ms state r1 =
  filter (fun t => match date_ms (Transaction.date t) with
                   | Some d => Qle_bool (now_ms - daysAgo r1 * 24 * 60 * 60 * 1000) d
                   | None => false
                   end)
    (getFilteredTransactions date_ms now_ms state r2).
Proof.
  intros Hr; unfold getFilteredTransactions; rewrite filter_filter_andb.
  apply filter_ext_in; intros t.
  destruct (date_ms (Transaction.date t)) as [d|]; [|reflexivity].
  destruct (Qle_bool (now_ms - daysAgo r1 * 24 * 60 * 60 * 1000) d) eqn:E;
    [|rewrite andb_false_r; reflexivity].
  apply Qle_bool_iff in E.
  assert (Qle_bool (now_ms - daysAgo r2 * 24 * 60 * 60 * 1000) d = true) as E2
    by (apply Qle_bool_iff; lra).
  rewrite E2; reflexivity.
Qed.

Lemma filtered_transactions_monotone_witness :
  let dm := fun s : string => if String.eqb s "2024-01-10" then Some 100 else None in
  getFilteredTransactions dm 1000 (food_budget_state [500]) days7 =
  filter (fun t => match dm (Transaction.date t) with
                   | Some d => Qle_bool (1000 - daysAgo days7 * 24 * 60 * 60 * 1000) d
                   | None => false
                   end)
    (getFilteredTransactions dm 1000 (food_budget_state [500]) days30).
Proof.
  apply filtered_transactions_monotone; discriminate.
Defined.

(** * JS runtime semantics, [getExpensesByCategory] and the pages *)

Module Js.

(** The libraries again, in the order that makes [SpecFloat]'s names
    (such as [iter_pos]) the visible ones. *)
Import ZArith NArith Bool Floats String Ascii List Sorted Permutation.
Import ListNotations.
Local Open Scope Z_scope.
Set Warnings "-inexact-float".

(** ** IEEE-754 doubles: rounding lemmas and the order of finite values *)

Abbreviation emin64 := (SpecFloat.emin FloatOps.prec FloatOps.emax).

Lemma emin64_val : emin64 = -1074.
Proof. reflexivity. Qed.

Lemma digits2_bounds (p : positive) :
  2 ^ (Zpos (digits2_pos p) - 1) <= Zpos p < 2 ^ Zpos (digits2_pos p).
Proof.
  induction p as [p IH|p IH|]; cbn [digits2_pos]; [| |split; [apply Z.le_refl|reflexivity]].
  all: rewrite Pos2Z.inj_succ;
       replace (Z.succ (Zpos (digits2_pos p)) - 1) with (Zpos (digits2_pos p)) by lia;
       rewrite Z.pow_succ_r by lia;
       assert (2 ^ Zpos (digits2_pos p) = 2 * 2 ^ (Zpos (digits2_pos p) - 1)) as E
         by (rewrite <- Z.pow_succ_r by lia; f_equal; lia);
       try change (Zpos p~1) with (2 * Zpos p + 1);
       try change (Zpos p~0) with (2 * Zpos p);
       set (X := 2 ^ (Zpos (digits2_pos p) - 1)) in *;
       set (Y := 2 ^ Zpos (digits2_pos p)) in *; clearbody X Y; lia.
Qed.

Lemma shr_1_m (r : shr_record) : 0 <= shr_m r -> shr_m (shr_1 r) = shr_m r / 2.
Proof.
  destruct r as [m rr ss]; simpl; intros H; rewrite <- Z.div2_div.
  destruct m as [|[p|p|]|p]; simpl in *; try reflexivity; lia.
Qed.

Lemma iter_shr_m (p : positive) : forall r, 0 <= shr_m r ->
  shr_m (iter_pos shr_1 p r) = shr_m r / 2 ^ Zpos p.
Proof.
  induction p as [p IH|p IH|]; intros r H; cbn [iter_pos].
  - assert (E1 : shr_m (shr_1 r) = shr_m r / 2) by (apply shr_1_m; exact H).
    assert (E2 : shr_m (iter_pos shr_1 p (shr_1 r)) = shr_m r / 2 / 2 ^ Zpos p)
      by (rewrite IH, E1; [reflexivity|rewrite E1; apply Z.div_pos; lia]).
    rewrite IH, E2 by (rewrite E2; apply Z.div_pos; [apply Z.div_pos|]; lia).
    rewrite !Z.div_div by lia.
    f_equal. rewrite (Pos2Z.inj_xI p).
    replace (2 * Zpos p + 1) with (Zpos p + Zpos p + 1) by lia.
    rewrite Z.pow_add_r, Z.pow_add_r by lia. ring.
  - assert (E2 : shr_m (iter_pos shr_1 p r) = shr_m r / 2 ^ Zpos p) by (apply IH, H).
    rewrite IH, E2 by (rewrite E2; apply Z.div_pos; lia).
    rewrite Z.div_div by lia. f_equal. rewrite (Pos2Z.inj_xO p).
    replace (2 * Zpos p) with (Zpos p + Zpos p) by lia.
    rewrite Z.pow_add_r by lia. ring.
  - apply shr_1_m, H.
Qed.

Lemma shr_fexp_ge1 (m e : Z) (l : location) :
  1 <= m -> emin64 <= e ->
  1 <= shr_m (fst (shr_fexp FloatOps.prec FloatOps.emax m e l)) /\
  emin64 <= snd (shr_fexp FloatOps.prec FloatOps.emax m e l).
Proof.
  rewrite emin64_val; intros Hm He. unfold shr_fexp, shr, fexp.
  rewrite emin64_val.
  destruct m as [|mp|mp]; [lia| |lia]. cbn [Zdigits2].
  pose proof (digits2_bounds mp) as [D1 D2].
  change FloatOps.prec with 53.
  destruct (Z.max (Zpos (digits2_pos mp) + e - 53) (-1074) - e) as [|p|p] eqn:En; simpl.
  - destruct l as [|[]]; simpl; lia.
  - rewrite iter_shr_m by (destruct l as [|[]]; simpl; lia).
    assert (shr_m (shr_record_of_loc (Zpos mp) l) = Zpos mp) as -> by (destruct l as [|[]]; reflexivity).
    split; [|lia].
    apply Z.div_le_lower_bound; [lia|].
    rewrite Z.mul_1_r.
    apply Z.le_trans with (2 := D1), Z.pow_le_mono_r; lia.
  - destruct l as [|[]]; simpl; lia.
Qed.

Definition nz_sign (sx : bool) (x : spec_float) : Prop :=
  match x with
  | S754_finite s _ e => s = sx /\ emin64 <= e
  | S754_infinity s => s = sx
  | _ => False
  end.

Lemma binary_round_aux_nz sx m e :
  1 <= m -> emin64 <= e ->
  nz_sign sx (binary_round_aux FloatOps.prec FloatOps.emax sx m e loc_Exact).
Proof.
  intros Hm He; unfold binary_round_aux.
  destruct (shr_fexp FloatOps.prec FloatOps.emax m e loc_Exact) as [r1 e1] eqn:S1.
  pose proof (shr_fexp_ge1 m e loc_Exact Hm He) as H1; rewrite S1 in H1; simpl in H1.
  destruct H1 as [H1 H1'].
  assert (R : 1 <= round_nearest_even (shr_m r1) (loc_of_shr_record r1))
    by (destruct (loc_of_shr_record r1) as [|[]]; simpl; try destruct (Z.even _); lia).
  destruct (shr_fexp FloatOps.prec FloatOps.emax
              (round_nearest_even (shr_m r1) (loc_of_shr_record r1)) e1 loc_Exact)
    as [r2 e2] eqn:S2.
  pose proof (shr_fexp_ge1 _ e1 loc_Exact R H1') as H2; rewrite S2 in H2; simpl in H2.
  destruct H2 as [H2 H2'].
  destruct (shr_m r2) as [|p|p]; [lia| |lia].
  destruct (Z.leb _ _); simpl; auto.
Qed.

Lemma binary_round_nz sx mx ex :
  emin64 <= ex -> nz_sign sx (binary_round FloatOps.prec FloatOps.emax sx mx ex).
Proof.
  intros He; unfold binary_round, shl_align.
  destruct (fexp FloatOps.prec FloatOps.emax (Zpos (digits2_pos mx) + ex) - ex) as [|d|d] eqn:E;
    apply binary_round_aux_nz; try lia.
  unfold fexp in *; lia.
Qed.

Lemma binary_normalize_sign m e : emin64 <= e ->
  match m with
  | Z0 => binary_normalize FloatOps.prec FloatOps.emax m e false = S754_zero false
  | Zpos _ => nz_sign false (binary_normalize FloatOps.prec FloatOps.emax m e false)
  | Zneg _ => nz_sign true (binary_normalize FloatOps.prec FloatOps.emax m e false)
  end.
Proof. intros He; destruct m; simpl; [reflexivity|apply binary_round_nz..]; exact He. Qed.

Definition zval (x : spec_float) : Z :=
  match x with
  | S754_finite s m e => cond_Zopp s (Zpos m * 2 ^ (e + 1074))
  | _ => 0
  end.

Definition fkey (x : spec_float) : Z * Z :=
  match x with
  | S754_infinity s => (if s then -1 else 1, 0)
  | _ => (0, zval x)
  end.

Definition kcmp (a b : Z * Z) : comparison :=
  match Z.compare (fst a) (fst b) with Eq => Z.compare (snd a) (snd b) | c => c end.

Definition not_nan (x : spec_float) : bool :=
  match x with S754_nan => false | _ => true end.

Definition finite_sf (x : spec_float) : bool :=
  match x with S754_finite _ _ _ | S754_zero _ => true | _ => false end.

Lemma valid_finite s m e :
  SpecFloat.valid_binary FloatOps.prec FloatOps.emax (S754_finite s m e) = true ->
  -1074 <= e /\ Zpos (digits2_pos m) <= 53 /\ (-1074 < e -> Zpos (digits2_pos m) = 53).
Proof.
  unfold SpecFloat.valid_binary, bounded, canonical_mantissa, fexp.
  rewrite emin64_val; change FloatOps.prec with 53.
  intros H; apply andb_prop in H as [H _]; apply Z.eqb_eq in H; lia.
Qed.

Lemma pow_pos_e e : -1074 <= e -> 0 < 2 ^ (e + 1074).
Proof. intros; apply Z.pow_pos_nonneg; lia. Qed.

(** Comparison of two positive finite floats in canonical form. *)
Lemma pos_cmp_lt m1 e1 m2 e2 :
  -1074 <= e1 -> Zpos (digits2_pos m1) <= 53 ->
  e1 < e2 -> Zpos (digits2_pos m2) = 53 ->
  Zpos m1 * 2 ^ (e1 + 1074) < Zpos m2 * 2 ^ (e2 + 1074).
Proof.
  intros He1 Hd1 Hlt Hd2.
  pose proof (digits2_bounds m1) as [_ B1]. pose proof (digits2_bounds m2) as [B2 _].
  rewrite Hd2 in B2.
  assert (2 ^ Zpos (digits2_pos m1) <= 2 ^ 53) by (apply Z.pow_le_mono_r; lia).
  replace (e2 + 1074) with ((e2 - e1) + (e1 + 1074)) by lia.
  rewrite (Z.pow_add_r 2 (e2 - e1) (e1 + 1074)) by lia.
  assert (2 <= 2 ^ (e2 - e1)).
  { replace 2 with (2 ^ 1) at 1 by reflexivity. apply Z.pow_le_mono_r; lia. }
  pose proof (pow_pos_e e1 He1).
  change (2 ^ (53 - 1)) with 4503599627370496 in B2.
  change (2 ^ 53) with 9007199254740992 in *.
  set (K := 2 ^ (e1 + 1074)) in *; set (T := 2 ^ (e2 - e1)) in *;
  set (D := 2 ^ Zpos (digits2_pos m1)) in *; clearbody K T D.
  assert (Zpos m1 < Zpos m2 * T) by nia.
  rewrite Z.mul_assoc; apply Z.mul_lt_mono_pos_r; assumption.
Qed.

Lemma pos_cmp m1 e1 m2 e2 :
  SpecFloat.valid_binary FloatOps.prec FloatOps.emax (S754_finite false m1 e1) = true ->
  SpecFloat.valid_binary FloatOps.prec FloatOps.emax (S754_finite false m2 e2) = true ->
  Z.compare (Zpos m1 * 2 ^ (e1 + 1074)) (Zpos m2 * 2 ^ (e2 + 1074)) =
  match Z.compare e1 e2 with Eq => Pos.compare m1 m2 | c => c end.
Proof.
  intros V1 V2.
  apply valid_finite in V1 as [E1 [D1 N1]]; apply valid_finite in V2 as [E2 [D2 N2]].
  destruct (Z.compare_spec e1 e2) as [->|L|L].
  - destruct (Pos.compare_spec m1 m2) as [->|L|L].
    + apply Z.compare_refl.
    + apply Z.compare_lt_iff, Z.mul_lt_mono_pos_r; [apply pow_pos_e|]; lia.
    + apply Z.compare_gt_iff, Z.mul_lt_mono_pos_r; [apply pow_pos_e|]; lia.
  - apply Z.compare_lt_iff, pos_cmp_lt; auto; apply N2; lia.
  - apply Z.compare_gt_iff, pos_cmp_lt; auto; apply N1; lia.
Qed.

Lemma SFcompare_fkey x y :
  SpecFloat.valid_binary FloatOps.prec FloatOps.emax x = true ->
  SpecFloat.valid_binary FloatOps.prec FloatOps.emax y = true ->
  not_nan x = true -> not_nan y = true ->
  SFcompare x y = Some (kcmp (fkey x) (fkey y)).
Proof.
  intros Vx Vy Nx Ny.
  destruct x as [sx|sx| |sx mx ex]; [| |discriminate|];
  destruct y as [sy|sy| |sy my ey]; try discriminate;
  try (destruct sx); try (destruct sy); try reflexivity;
  repeat match goal with
  | H : SpecFloat.valid_binary _ _ (S754_finite _ _ _) = true |- _ =>
      let E := fresh in pose proof (proj1 (valid_finite _ _ _ H)) as E;
      pose proof (pow_pos_e _ E); revert H
  end; intros;
  unfold kcmp, fkey, zval, cond_Zopp; cbn [SFcompare fst snd].
  all: try (f_equal; first [ reflexivity
                           | symmetry; apply Z.compare_lt_iff; nia
                           | symmetry; apply Z.compare_gt_iff; nia]).
  - f_equal. rewrite Z.compare_opp, (pos_cmp my ey mx ex) by assumption.
    destruct (Z.compare_spec ex ey) as [->|L|L].
    + rewrite (Z.compare_refl ey).
      change (Pos.compare_cont Eq mx my) with (Pos.compare mx my).
      rewrite Pos.compare_antisym, CompOpp_involutive; reflexivity.
    + rewrite (proj2 (Z.compare_gt_iff ey ex) L); reflexivity.
    + rewrite (proj2 (Z.compare_lt_iff ey ex) L); reflexivity.
  - f_equal. rewrite (pos_cmp mx ex my ey) by assumption. reflexivity.
Qed.

Lemma iter_xO (m d : positive) : Zpos (Pos.iter xO m d) = Zpos m * 2 ^ Zpos d.
Proof.
  induction d as [|d IH] using Pos.peano_ind.
  - change (Pos.iter xO m 1) with (xO m). rewrite (Pos2Z.inj_xO m). change (2 ^ Zpos 1) with 2. ring.
  - rewrite Pos.iter_succ, Pos2Z.inj_succ, Z.pow_succ_r by lia.
    rewrite (Pos2Z.inj_xO (Pos.iter xO m d)), IH. ring.
Qed.

Lemma shl_align_val mx ex ez : ez <= ex ->
  Zpos (fst (shl_align mx ex ez)) = Zpos mx * 2 ^ (ex - ez).
Proof.
  intros H; unfold shl_align; destruct (ez - ex) as [|p|p] eqn:E; cbn [fst].
  - replace (ex - ez) with 0 by lia. ring.
  - lia.
  - rewrite iter_xO. do 2 f_equal. lia.
Qed.

Lemma zval_align s m e ez : -1074 <= ez -> ez <= e ->
  zval (S754_finite s m e) = cond_Zopp s (Zpos (fst (shl_align m e ez))) * 2 ^ (ez + 1074).
Proof.
  intros H1 H2; unfold zval; rewrite shl_align_val by lia.
  replace (e + 1074) with ((e - ez) + (ez + 1074)) by lia.
  rewrite (Z.pow_add_r 2 (e - ez) (ez + 1074)) by lia.
  destruct s; cbn [cond_Zopp]; ring.
Qed.

Definition sgn_key (x : spec_float) : comparison := kcmp (fkey x) (0, 0).

Lemma nz_sign_key sx x : nz_sign sx x -> sgn_key x = if sx then Lt else Gt.
Proof.
  destruct x as [| | |s m e]; simpl; try tauto; intros H.
  - subst; destruct sx; reflexivity.
  - destruct H as [-> H]; rewrite emin64_val in H.
    unfold sgn_key, kcmp, fkey, zval, cond_Zopp; cbn [fst snd].
    rewrite Z.compare_refl.
    pose proof (pow_pos_e e H).
    destruct sx; [apply Z.compare_lt_iff|apply Z.compare_gt_iff]; nia.
Qed.

Lemma binary_normalize_key m e : -1074 <= e ->
  not_nan (binary_normalize FloatOps.prec FloatOps.emax m e false) = true /\
  sgn_key (binary_normalize FloatOps.prec FloatOps.emax m e false) = Z.compare m 0.
Proof.
  intros He; rewrite <- emin64_val in He.
  pose proof (binary_normalize_sign m e He) as S.
  destruct m as [|p|p].
  - rewrite S; split; reflexivity.
  - pose proof (nz_sign_key _ _ S) as K; split; [|exact K].
    revert S; destruct (binary_normalize _ _ _ _ _); simpl; tauto.
  - pose proof (nz_sign_key _ _ S) as K; split; [|exact K].
    revert S; destruct (binary_normalize _ _ _ _ _); simpl; tauto.
Qed.

Lemma compare_scale a b k : 0 < k -> Z.compare (a * k) (b * k) = Z.compare (a - b) 0.
Proof.
  intros Hk; rewrite Z.compare_sub.
  replace (a * k - b * k) with ((a - b) * k) by ring.
  destruct (Z.compare_spec (a - b) 0) as [E|E|E].
  - rewrite E; reflexivity.
  - apply Z.compare_lt_iff; nia.
  - apply Z.compare_gt_iff; nia.
Qed.

Lemma SFsub_key x y :
  SpecFloat.valid_binary FloatOps.prec FloatOps.emax x = true ->
  SpecFloat.valid_binary FloatOps.prec FloatOps.emax y = true ->
  finite_sf x = true -> finite_sf y = true ->
  not_nan (SFsub FloatOps.prec FloatOps.emax x y) = true /\
  sgn_key (SFsub FloatOps.prec FloatOps.emax x y) = Z.compare (zval x) (zval y).
Proof.
  destruct x as [sx| | |sx mx ex]; destruct y as [sy| | |sy my ey];
    intros Vx Vy Fx Fy; try discriminate.
  - destruct sx, sy; split; reflexivity.
  - pose proof (pow_pos_e _ (proj1 (valid_finite _ _ _ Vy))).
    split; [reflexivity|].
    unfold sgn_key, kcmp, fkey, zval, cond_Zopp; cbn [SFsub fst snd].
    rewrite Z.compare_refl.
    destruct sy; simpl negb; cbn iota;
      [transitivity Gt; [apply Z.compare_gt_iff|symmetry; apply Z.compare_gt_iff]
      |transitivity Lt; [apply Z.compare_lt_iff|symmetry; apply Z.compare_lt_iff]]; nia.
  - split; [reflexivity|]. destruct sy; reflexivity.
  - pose proof (proj1 (valid_finite _ _ _ Vx)) as Ex.
    pose proof (proj1 (valid_finite _ _ _ Vy)) as Ey.
    cbn [SFsub].
    destruct (binary_normalize_key
      (cond_Zopp sx (Zpos (fst (shl_align mx ex (Z.min ex ey)))) -
       cond_Zopp sy (Zpos (fst (shl_align my ey (Z.min ex ey))))) (Z.min ex ey)) as [N K];
      [lia|].
    split; [exact N|]. rewrite K.
    rewrite (zval_align sx mx ex (Z.min ex ey)), (zval_align sy my ey (Z.min ex ey)) by lia.
    rewrite compare_scale by (apply pow_pos_e; lia). reflexivity.
Qed.

Lemma SFadd_key x y :
  SpecFloat.valid_binary FloatOps.prec FloatOps.emax x = true ->
  SpecFloat.valid_binary FloatOps.prec FloatOps.emax y = true ->
  finite_sf x = true -> finite_sf y = true ->
  not_nan (SFadd FloatOps.prec FloatOps.emax x y) = true /\
  sgn_key (SFadd FloatOps.prec FloatOps.emax x y) = Z.compare (zval x + zval y) 0.
Proof.
  destruct x as [sx| | |sx mx ex]; destruct y as [sy| | |sy my ey];
    intros Vx Vy Fx Fy; try discriminate.
  - destruct sx, sy; split; reflexivity.
  - split; [reflexivity|]. reflexivity.
  - split; [reflexivity|]. unfold sgn_key, kcmp, fkey, zval; cbn [SFadd fst snd].
    rewrite Z.compare_refl, Z.add_0_r. reflexivity.
  - pose proof (proj1 (valid_finite _ _ _ Vx)) as Ex.
    pose proof (proj1 (valid_finite _ _ _ Vy)) as Ey.
    cbn [SFadd].
    destruct (binary_normalize_key
      (cond_Zopp sx (Zpos (fst (shl_align mx ex (Z.min ex ey)))) +
       cond_Zopp sy (Zpos (fst (shl_align my ey (Z.min ex ey))))) (Z.min ex ey)) as [N K];
      [lia|].
    split; [exact N|]. rewrite K.
    rewrite (zval_align sx mx ex (Z.min ex ey)), (zval_align sy my ey (Z.min ex ey)) by lia.
    rewrite <- Z.mul_add_distr_r.
    pose proof (pow_pos_e (Z.min ex ey) ltac:(lia)).
    destruct (Z.compare_spec (cond_Zopp sx (Zpos (fst (shl_align mx ex (Z.min ex ey)))) +
       cond_Zopp sy (Zpos (fst (shl_align my ey (Z.min ex ey))))) 0) as [E|E|E].
    + rewrite E; reflexivity.
    + symmetry; apply Z.compare_lt_iff; nia.
    + symmetry; apply Z.compare_gt_iff; nia.
Qed.

Definition klt (a b : Z * Z) : Prop :=
  fst a < fst b \/ (fst a = fst b /\ snd a < snd b).

Lemma kcmp_spec a b : CompareSpec (a = b) (klt a b) (klt b a) (kcmp a b).
Proof.
  destruct a as [a1 a2], b as [b1 b2]; unfold kcmp, klt; cbn [fst snd].
  destruct (Z.compare_spec a1 b1) as [E|E|E].
  - subst. destruct (Z.compare_spec a2 b2); constructor; [congruence|lia|lia].
  - constructor; lia.
  - constructor; lia.
Qed.

Definition kltb (a b : Z * Z) : bool := match kcmp a b with Lt => true | _ => false end.
Definition kleb (a b : Z * Z) : bool := match kcmp a b with Gt => false | _ => true end.

Lemma kltb_iff a b : kltb a b = true <-> klt a b.
Proof.
  unfold kltb; destruct (kcmp_spec a b) as [E|E|E]; [subst| |];
    split; intros H; unfold klt in *; try reflexivity; try exact E; exfalso;
    try discriminate; lia.
Qed.

Lemma kleb_iff a b : kleb a b = true <-> ~ klt b a.
Proof.
  unfold kleb; destruct (kcmp_spec a b) as [E|E|E]; [subst| |];
    split; intros H; unfold klt in *; try reflexivity; try lia; exfalso;
    try discriminate; auto.
Qed.

Lemma kcmp_opp a b : kcmp b a = CompOpp (kcmp a b).
Proof.
  destruct (kcmp_spec a b) as [E|E|E]; destruct (kcmp_spec b a) as [E'|E'|E'];
    subst; unfold klt in *; simpl; try reflexivity; lia.
Qed.

Lemma valid_prim (x : float) : SpecFloat.valid_binary FloatOps.prec FloatOps.emax (Prim2SF x) = true.
Proof. apply Prim2SF_valid. Qed.

(** The extended-real key of a double. *)
Definition fk (x : float) : Z * Z := fkey (Prim2SF x).
Definition nnan (x : float) : bool := not_nan (Prim2SF x).

Lemma ltb_fk x y : nnan x = true -> nnan y = true -> (x <? y)%float = kltb (fk x) (fk y).
Proof.
  intros Hx Hy; rewrite ltb_spec; unfold SFltb, kltb, fk.
  rewrite SFcompare_fkey by (apply valid_prim || assumption). reflexivity.
Qed.

Lemma leb_fk x y : nnan x = true -> nnan y = true -> (x <=? y)%float = kleb (fk x) (fk y).
Proof.
  intros Hx Hy; rewrite leb_spec; unfold SFleb, kleb, fk.
  rewrite SFcompare_fkey by (apply valid_prim || assumption).
  destruct (kcmp _ _); reflexivity.
Qed.

Lemma eqb_fk x y : nnan x = true -> nnan y = true ->
  (x =? y)%float = match kcmp (fk x) (fk y) with Eq => true | _ => false end.
Proof.
  intros Hx Hy; rewrite FloatAxioms.eqb_spec; unfold SFeqb, fk.
  rewrite SFcompare_fkey by (apply valid_prim || assumption). reflexivity.
Qed.

Lemma eqb_self x : (x =? x)%float = nnan x.
Proof.
  unfold nnan; destruct (not_nan (Prim2SF x)) eqn:N.
  - rewrite eqb_fk by assumption. destruct (kcmp_spec (fk x) (fk x)) as [|E|E]; auto;
      unfold klt in E; lia.
  - rewrite FloatAxioms.eqb_spec; unfold SFeqb.
    destruct (Prim2SF x); try discriminate; reflexivity.
Qed.

Lemma fk_zero : fk 0%float = (0, 0).
Proof. reflexivity. Qed.

Lemma nnan_zero : nnan 0%float = true.
Proof. reflexivity. Qed.

(** Subtraction of two non-NaN doubles, as seen by a sort comparator. *)
Lemma SFsub_gen x y :
  SpecFloat.valid_binary FloatOps.prec FloatOps.emax x = true ->
  SpecFloat.valid_binary FloatOps.prec FloatOps.emax y = true ->
  not_nan x = true -> not_nan y = true ->
  (not_nan (SFsub FloatOps.prec FloatOps.emax x y) = true /\
   sgn_key (SFsub FloatOps.prec FloatOps.emax x y) = kcmp (fkey x) (fkey y)) \/
  (SFsub FloatOps.prec FloatOps.emax x y = S754_nan /\ fkey x = fkey y).
Proof.
  intros Vx Vy Nx Ny.
  destruct x as [sx|sx| |sx mx ex]; destruct y as [sy|sy| |sy my ey]; try discriminate;
    try (left; destruct (SFsub_key _ _ Vx Vy eq_refl eq_refl) as [N K]; split; [exact N|];
         rewrite K; unfold kcmp, fkey; cbn [fst snd]; rewrite Z.compare_refl; reflexivity);
    try (destruct sx; destruct sy; simpl; auto; fail);
    left; split; try reflexivity;
    destruct sx; destruct sy; reflexivity.
Qed.

Definition sort_compare (v : float) : float := if (v =? v)%float then v else 0%float.

Lemma sgn_ltb0 r : nnan r = true -> (r <? 0)%float = match sgn_key (Prim2SF r) with Lt => true | _ => false end.
Proof.
  intros N; rewrite ltb_fk by (assumption || reflexivity). reflexivity.
Qed.

Lemma sub_cmp x y : nnan x = true -> nnan y = true ->
  (sort_compare (x - y) <? 0)%float = kltb (fk x) (fk y).
Proof.
  intros Hx Hy; unfold sort_compare; rewrite eqb_self.
  pose proof (SFsub_gen _ _ (valid_prim x) (valid_prim y) Hx Hy) as [[N K]|[N K]];
    unfold nnan; rewrite sub_spec; unfold SF64sub.
  - rewrite N. rewrite sgn_ltb0 by (unfold nnan; rewrite sub_spec; exact N).
    rewrite sub_spec; unfold SF64sub; rewrite K; reflexivity.
  - rewrite N; cbn. unfold kltb, fk; rewrite K.
    destruct (kcmp_spec (fkey (Prim2SF y)) (fkey (Prim2SF y))) as [|E|E]; auto;
      unfold klt in E; lia.
Qed.

Lemma cmp_opp0 a : (- a ?= 0) = CompOpp (a ?= 0).
Proof.
  destruct (Z.compare_spec a 0); destruct (Z.compare_spec (- a) 0);
    simpl; try reflexivity; exfalso; lia.
Qed.

Lemma sgn_key_opp r : not_nan r = true -> sgn_key (SFopp r) = CompOpp (sgn_key r).
Proof.
  destruct r as [s|s| |s m e]; try discriminate; intros _; unfold sgn_key, kcmp, fkey, zval;
    cbn [SFopp fst snd].
  - rewrite !Z.compare_refl; reflexivity.
  - destruct s; reflexivity.
  - rewrite !Z.compare_refl. destruct s; cbn [negb cond_Zopp];
      rewrite ?cmp_opp0, ?CompOpp_involutive; reflexivity.
Qed.

Lemma neg_sub_cmp x y : nnan x = true -> nnan y = true ->
  (sort_compare (- (x - y)) <? 0)%float = kltb (fk y) (fk x).
Proof.
  intros Hx Hy; unfold sort_compare; rewrite eqb_self.
  pose proof (SFsub_gen _ _ (valid_prim x) (valid_prim y) Hx Hy) as [[N K]|[N K]];
    unfold nnan; rewrite opp_spec, sub_spec; unfold SF64sub.
  - assert (not_nan (SFopp (SFsub FloatOps.prec FloatOps.emax (Prim2SF x) (Prim2SF y))) = true) as N'
      by (revert N; destruct (SFsub _ _ _ _); auto).
    rewrite N'. rewrite sgn_ltb0 by (unfold nnan; rewrite opp_spec, sub_spec; exact N').
    rewrite opp_spec, sub_spec; unfold SF64sub; rewrite sgn_key_opp by exact N.
    rewrite K. unfold kltb, fk. rewrite (kcmp_opp (fkey (Prim2SF x)) (fkey (Prim2SF y))).
    reflexivity.
  - rewrite N; cbn. unfold kltb, fk; rewrite K.
    destruct (kcmp_spec (fkey (Prim2SF y)) (fkey (Prim2SF y))) as [|E|E]; auto;
      unfold klt in E; lia.
Qed.

(** Positive doubles, [+Infinity] included, are closed under addition. *)
Definition pos_sf (x : spec_float) : Prop := not_nan x = true /\ sgn_key x = Gt.

Lemma SFadd_pos x y :
  SpecFloat.valid_binary FloatOps.prec FloatOps.emax x = true ->
  SpecFloat.valid_binary FloatOps.prec FloatOps.emax y = true ->
  pos_sf x -> pos_sf y -> pos_sf (SFadd FloatOps.prec FloatOps.emax x y).
Proof.
  intros Vx Vy [Nx Px] [Ny Py].
  destruct x as [sx|sx| |sx mx ex]; try discriminate Nx;
    [unfold sgn_key, kcmp, fkey, zval in Px; cbn [fst snd] in Px;
     rewrite Z.compare_refl in Px; discriminate Px
    |destruct sx; [cbv in Px; discriminate Px|]|];
  (destruct y as [sy|sy| |sy my ey]; try discriminate Ny;
    [unfold sgn_key, kcmp, fkey, zval in Py; cbn [fst snd] in Py;
     rewrite Z.compare_refl in Py; discriminate Py
    |destruct sy; [cbv in Py; discriminate Py|]|]);
    try (split; reflexivity).
  destruct (SFadd_key _ _ Vx Vy eq_refl eq_refl) as [N K]; split; [exact N|].
  rewrite K. unfold sgn_key, kcmp, fkey in Px, Py; cbn [fst snd] in Px, Py.
  rewrite Z.compare_refl in Px, Py.
  apply Z.compare_gt_iff in Px; apply Z.compare_gt_iff in Py. apply Z.compare_gt_iff; lia.
Qed.

Lemma pos_prim x : (0 <? x)%float = true <-> pos_sf (Prim2SF x).
Proof.
  unfold pos_sf; destruct (not_nan (Prim2SF x)) eqn:N.
  - rewrite ltb_fk by (reflexivity || exact N). unfold kltb, fk, sgn_key.
    change (fkey (Prim2SF 0)) with (0, 0).
    rewrite (kcmp_opp (fkey (Prim2SF x)) (0, 0)).
    destruct (kcmp _ _); simpl; split; intros H;
      try discriminate; try (destruct H as [_ H]; discriminate); try (split; reflexivity); reflexivity.
  - rewrite ltb_spec; destruct (Prim2SF x); try discriminate N.
    split; intros H; [cbv in H; discriminate H|destruct H as [H _]; discriminate H].
Qed.

Lemma add_pos x y : (0 <? x)%float = true -> (0 <? y)%float = true -> (0 <? x + y)%float = true.
Proof.
  rewrite !pos_prim, add_spec; intros Hx Hy; apply SFadd_pos; auto using valid_prim.
Qed.

Lemma pos_nnan x : (0 <? x)%float = true -> nnan x = true.
Proof. rewrite pos_prim; intros [N _]; exact N. Qed.

Lemma pos_not_zero x : (0 <? x)%float = true -> (x =? 0)%float = false.
Proof.
  intros H; pose proof (pos_nnan x H) as N; apply pos_prim in H as [_ H].
  rewrite eqb_fk by (exact N || reflexivity). unfold fk; change (fkey (Prim2SF 0)) with (0, 0).
  unfold sgn_key in H; rewrite H; reflexivity.
Qed.

Lemma klt_irrefl a : ~ klt a a.
Proof. unfold klt; lia. Qed.

Lemma klt_trans a b c : klt a b -> klt b c -> klt a c.
Proof. unfold klt; lia. Qed.

Lemma klt_total a b : a = b \/ klt a b \/ klt b a.
Proof. destruct (kcmp_spec a b); auto. Qed.

(** ** JS values *)

Inductive jsval :=
| JNum (x : float)
| JStr (s : string)
| JFun (name : string)
| JProto
| JUndefined.

Definition object_prototype_methods : list string :=
  ["constructor"; "__defineGetter__"; "__defineSetter__"; "hasOwnProperty";
   "__lookupGetter__"; "__lookupSetter__"; "isPrototypeOf";
   "propertyIsEnumerable"; "toString"; "valueOf"; "toLocaleString"]%string.

Definition is_object_prototype_key (k : string) : bool :=
  String.eqb k "__proto__" || existsb (String.eqb k) object_prototype_methods.

Definition proto_lookup (k : string) : jsval :=
  if String.eqb k "__proto__" then JProto
  else if String.eqb k "constructor" then JFun "Object"
  else if existsb (String.eqb k) object_prototype_methods then JFun k
  else JUndefined.

Definition obj := list (string * jsval).

Fixpoint own_get (o : obj) (k : string) : option jsval :=
  match o with
  | [] => None
  | (k', v) :: r => if String.eqb k' k then Some v else own_get r k
  end.

Fixpoint own_set (o : obj) (k : string) (v : jsval) : obj :=
  match o with
  | [] => [(k, v)]
  | (k', v') :: r => if String.eqb k' k then (k', v) :: r else (k', v') :: own_set r k v
  end.

Definition js_get (o : obj) (k : string) : jsval :=
  match own_get o k with Some v => v | None => proto_lookup k end.

Definition js_set (o : obj) (k : string) (v : jsval) : obj :=
  if String.eqb k "__proto__" then o else own_set o k v.

Definition truthy (v : jsval) : bool :=
  match v with
  | JNum x => negb (x =? 0)%float && (x =? x)%float
  | JStr s => negb (String.eqb s "")
  | JFun _ | JProto => true
  | JUndefined => false
  end.

Definition js_or (a b : jsval) : jsval := if truthy a then a else b.

Inductive prim := PNum (x : float) | PStr (s : string) | PUndefined.

Definition fun_source (name : string) : string :=
  ("function " ++ name ++ "() { [native code] }")%string.

Definition to_primitive (v : jsval) : prim :=
  match v with
  | JNum x => PNum x
  | JStr s => PStr s
  | JFun f => PStr (fun_source f)
  | JProto => PStr "[object Object]"
  | JUndefined => PUndefined
  end.

(** ** Data (src/src/context/BudgetContext.tsx, lines 4-27) *)

Module Transaction.
Record t := mk {
  id : string;
  amount : float;
  type : TxType;
  category : string;
  date : string;
  description : string
}.
End Transaction.

Module Budget.
Record t := mk {
  category : string;
  limit : float;
  spent : jsval
}.
End Budget.

Record BudgetState := mkState {
  transactions : list Transaction.t;
  budgets : list Budget.t;
  categories : list Category.t
}.

Section Runtime.
Variable Number_toString : float -> string.
Variable StringToNumber : string -> float.

Definition prim_to_number (p : prim) : float :=
  match p with PNum x => x | PStr s => StringToNumber s | PUndefined => nan end.

Definition to_number (v : jsval) : float := prim_to_number (to_primitive v).

Definition js_add_num (a : jsval) (n : float) : jsval :=
  match to_primitive a with
  | PNum x => JNum (x + n)
  | PStr s => JStr (s ++ Number_toString n)
  | PUndefined => JNum nan
  end.

Definition js_gt (a b : jsval) : bool :=
  match to_primitive a, to_primitive b with
  | PStr s, PStr s' => match String.compare s s' with Gt => true | _ => false end
  | pa, pb => (prim_to_number pb <? prim_to_number pa)%float
  end.
(** [Math.min(a, b)] *)
Definition Math_min (a b : float) : float :=
  if negb (a =? a)%float then a
  else if negb (b =? b)%float then b
  else if (a <? b)%float then a
  else if (b <? a)%float then b
  else match PrimFloat.classify a with NZero => a | _ => b end.

Definition is_expense (t : Transaction.t) : bool :=
  TxType_eqb (Transaction.type t) expense.

(** [xs.reduce((sum, t) => sum + t.amount, 0)] *)
Definition sum_amounts (xs : list Transaction.t) : float :=
  fold_left (fun sum t => (sum + Transaction.amount t)%float) xs 0%float.

Definition calculateTotalExpenses (state : BudgetState) : float :=
  sum_amounts (filter is_expense (transactions state)).

(** One assignment [acc[t.category] = (acc[t.category] || 0) + t.amount]. *)
Definition category_step (acc : obj) (t : Transaction.t) : obj :=
  js_set acc (Transaction.category t)
    (js_add_num (js_or (js_get acc (Transaction.category t)) (JNum 0)) (Transaction.amount t)).

(** Lines 177-183. *)
Definition getExpensesByCategory (state : BudgetState) : obj :=
  let expenses := filter is_expense (transactions state) in
  fold_left category_step expenses [].

(** The [filter]/[reduce] of [getBudgetProgress], lines 189-191. *)
Definition spentForCategory (state : BudgetState) (category : string) : float :=
  sum_amounts
    (filter (fun t => is_expense t && String.eqb (Transaction.category t) category)
       (transactions state)).

(** Lines 185-194. *)
Definition getBudgetProgress (state : BudgetState) (category : string) : float :=
  match find (fun b => String.eqb (Budget.category b) category) (budgets state) with
  | None => 0%float
  | Some budget =>
      Math_min ((spentForCategory state category / Budget.limit budget) * 100)%float 100%float
  end.

(** The [SET_BUDGET] case of [budgetReducer], lines 77-85. *)
Definition setBudget (budget : Budget.t) (state : BudgetState) : BudgetState :=
  mkState (transactions state)
    (if existsb (fun b => String.eqb (Budget.category b) (Budget.category budget))
          (budgets state)
     then map (fun b => if String.eqb (Budget.category b) (Budget.category budget)
                        then budget else b) (budgets state)
     else budgets state ++ [budget])
    (categories state).

End Runtime.

(** ** Lemmas on the object model *)

Lemma own_get_set (o : obj) (k k' : string) (v : jsval) :
  own_get (own_set o k v) k' = if String.eqb k k' then Some v else own_get o k'.
Proof.
  induction o as [|[k0 v0] r IH]; simpl.
  - destruct (String.eqb k k'); reflexivity.
  - destruct (String.eqb k0 k) eqn:E0; simpl.
    + apply String.eqb_eq in E0; subst k0. destruct (String.eqb k k'); reflexivity.
    + rewrite IH. destruct (String.eqb k k') eqn:E; [|reflexivity].
      apply String.eqb_eq in E; subst k'. rewrite E0; reflexivity.
Qed.

Lemma own_set_keys (o : obj) (k k' : string) (v : jsval) :
  In k' (map fst (own_set o k v)) <-> k' = k \/ In k' (map fst o).
Proof.
  induction o as [|[k0 v0] r IH]; simpl; [intuition congruence|].
  destruct (String.eqb k0 k) eqn:E0; simpl.
  - apply String.eqb_eq in E0; subst k0; intuition congruence.
  - rewrite IH; intuition congruence.
Qed.

Lemma own_set_nodup (o : obj) (k : string) (v : jsval) :
  NoDup (map fst o) -> NoDup (map fst (own_set o k v)).
Proof.
  induction o as [|[k0 v0] r IH]; simpl; intros H.
  - constructor; [intros []|constructor].
  - inversion H as [|? ? Hn Hr]; subst.
    destruct (String.eqb k0 k) eqn:E0; simpl; constructor; auto.
    rewrite own_set_keys; intros [->|Hin]; [|contradiction].
    rewrite String.eqb_refl in E0; discriminate.
Qed.

Lemma own_get_none (o : obj) (k : string) : own_get o k = None <-> ~ In k (map fst o).
Proof.
  induction o as [|[k0 v0] r IH]; simpl; [tauto|].
  destruct (String.eqb k0 k) eqn:E0.
  - apply String.eqb_eq in E0; subst; split; [discriminate|tauto].
  - rewrite IH; apply String.eqb_neq in E0; tauto.
Qed.

Lemma own_get_in (o : obj) (k : string) (v : jsval) : own_get o k = Some v -> In (k, v) o.
Proof.
  induction o as [|[k0 v0] r IH]; simpl; [discriminate|].
  destruct (String.eqb k0 k) eqn:E0; intros H.
  - apply String.eqb_eq in E0; subst; injection H as ->; left; reflexivity.
  - right; apply IH, H.
Qed.

Lemma in_own_get (o : obj) (k : string) (v : jsval) :
  NoDup (map fst o) -> In (k, v) o -> own_get o k = Some v.
Proof.
  induction o as [|[k0 v0] r IH]; simpl; [tauto|]; intros Hn [E|Hin];
    inversion Hn as [|? ? Hk Hr]; subst.
  - injection E as -> ->; rewrite String.eqb_refl; reflexivity.
  - destruct (String.eqb k0 k) eqn:E0; [|apply IH; assumption].
    apply String.eqb_eq in E0; subst; exfalso; apply Hk.
    apply in_map_iff; exists (k, v); split; [reflexivity|exact Hin].
Qed.

Lemma js_get_set (o : obj) (k k' : string) (v : jsval) :
  k <> "__proto__"%string ->
  js_get (js_set o k v) k' = if String.eqb k k' then v else js_get o k'.
Proof.
  intros Hk; unfold js_get, js_set.
  destruct (String.eqb k "__proto__") eqn:E; [apply String.eqb_eq in E; contradiction|].
  rewrite own_get_set; destruct (String.eqb k k'); reflexivity.
Qed.


Lemma truthy_pos (x : float) : (0 <? x)%float = true -> truthy (JNum x) = true.
Proof.
  intros H; simpl; rewrite pos_not_zero, eqb_self, pos_nnan by exact H; reflexivity.
Qed.

Lemma zero_add_pos (a : float) : (0 <? a)%float = true -> (0 <? 0 + a)%float = true.
Proof.
  rewrite !pos_prim, add_spec; change (Prim2SF 0) with (S754_zero false).
  destruct (Prim2SF a) as [[]|[]| |[] m e]; cbn [SFadd]; intros H; try exact H;
    destruct H as [_ H]; cbv in H; discriminate H.
Qed.


Lemma proto_lookup_ordinary (k : string) :
  is_object_prototype_key k = false -> proto_lookup k = JUndefined.
Proof.
  unfold is_object_prototype_key, proto_lookup; intros H.
  apply orb_false_iff in H as [H1 H2]; rewrite H1, H2.
  destruct (String.eqb k "constructor") eqn:E; [|reflexivity].
  apply String.eqb_eq in E; subst; discriminate H2.
Qed.


Section CategoryFold.
Variable Number_toString : float -> string.

Definition key_step (v : jsval) (t : Transaction.t) : jsval :=
  js_add_num Number_toString (js_or v (JNum 0)) (Transaction.amount t).

Definition in_cat (k : string) (t : Transaction.t) : bool :=
  String.eqb (Transaction.category t) k.

Lemma category_step_get (acc : obj) (t : Transaction.t) (k : string) :
  k <> "__proto__"%string ->
  js_get (category_step Number_toString acc t) k =
  if in_cat k t then key_step (js_get acc k) t else js_get acc k.
Proof.
  intros Hk; unfold category_step, in_cat.
  destruct (String.eqb (Transaction.category t) "__proto__") eqn:P.
  - apply String.eqb_eq in P; rewrite P; unfold js_set at 1; rewrite String.eqb_refl.
    destruct (String.eqb "__proto__" k) eqn:E; [apply String.eqb_eq in E; congruence|reflexivity].
  - rewrite js_get_set by (apply String.eqb_neq, P).
    destruct (String.eqb (Transaction.category t) k) eqn:E; [|reflexivity].
    apply String.eqb_eq in E; subst; reflexivity.
Qed.

Lemma fold_get (l : list Transaction.t) (acc : obj) (k : string) :
  k <> "__proto__"%string ->
  js_get (fold_left (category_step Number_toString) l acc) k =
  fold_left key_step (filter (in_cat k) l) (js_get acc k).
Proof.
  revert acc; induction l as [|t r IH]; intros acc Hk; simpl; [reflexivity|].
  rewrite IH, category_step_get by exact Hk.
  destruct (in_cat k t); reflexivity.
Qed.

Lemma category_step_keys (acc : obj) (t : Transaction.t) (k : string) :
  In k (map fst (category_step Number_toString acc t)) <->
  In k (map fst acc) \/ (k <> "__proto__"%string /\ Transaction.category t = k).
Proof.
  unfold category_step, js_set.
  destruct (String.eqb (Transaction.category t) "__proto__") eqn:P.
  - apply String.eqb_eq in P; rewrite P; intuition congruence.
  - apply String.eqb_neq in P; rewrite own_set_keys; intuition congruence.
Qed.

Lemma fold_keys (l : list Transaction.t) (acc : obj) (k : string) :
  In k (map fst (fold_left (category_step Number_toString) l acc)) <->
  In k (map fst acc) \/
  (k <> "__proto__"%string /\ exists t, In t l /\ Transaction.category t = k).
Proof.
  revert acc; induction l as [|t r IH]; intros acc; simpl.
  - split; [tauto|intros [H|[_ [t [[] _]]]]; exact H].
  - rewrite IH, category_step_keys; split.
    + intros [[H|[Hk Ht]]|[Hk [t' [Ht' Hc]]]]; [tauto| |]; right; split; eauto.
    + intros [H|[Hk [t' [[<-|Ht'] Hc]]]]; [tauto|left; right; tauto|].
      right; split; eauto.
Qed.

Lemma fold_nodup (l : list Transaction.t) (acc : obj) :
  NoDup (map fst acc) -> NoDup (map fst (fold_left (category_step Number_toString) l acc)).
Proof.
  revert acc; induction l as [|t r IH]; intros acc H; simpl; [exact H|].
  apply IH; unfold category_step, js_set.
  destruct (String.eqb _ _); [exact H|apply own_set_nodup, H].
Qed.

Lemma key_fold_pos (l : list Transaction.t) (s : float) :
  (0 <? s)%float = true ->
  (forall t, In t l -> (0 <? Transaction.amount t)%float = true) ->
  fold_left key_step l (JNum s) =
    JNum (fold_left (fun sum t => (sum + Transaction.amount t)%float) l s) /\
  (0 <? fold_left (fun sum t => (sum + Transaction.amount t)%float) l s)%float = true.
Proof.
  revert s; induction l as [|t r IH]; intros s Hs Ha; simpl; [auto|].
  unfold key_step at 2, js_or; rewrite truthy_pos by exact Hs.
  apply IH; [apply add_pos; [exact Hs|apply Ha; left; reflexivity]|].
  intros t' Ht'; apply Ha; right; exact Ht'.
Qed.

Lemma key_fold_undefined (t : Transaction.t) (l : list Transaction.t) :
  (forall t', In t' (t :: l) -> (0 <? Transaction.amount t')%float = true) ->
  fold_left key_step (t :: l) JUndefined = JNum (sum_amounts (t :: l)) /\
  (0 <? sum_amounts (t :: l))%float = true.
Proof.
  intros Ha; unfold sum_amounts; simpl.
  apply key_fold_pos; [apply zero_add_pos, Ha; left; reflexivity|].
  intros t' Ht'; apply Ha; right; exact Ht'.
Qed.



End CategoryFold.

Lemma getExpensesByCategory_get (Number_toString : float -> string) (state : BudgetState) (k : string) :
  k <> "__proto__"%string ->
  js_get (getExpensesByCategory Number_toString state) k =
  fold_left (key_step Number_toString)
    (filter (fun t => is_expense t && String.eqb (Transaction.category t) k) (transactions state))
    (proto_lookup k).
Proof.
  intros Hk; unfold getExpensesByCategory; rewrite fold_get by exact Hk.
  unfold in_cat; rewrite filter_filter_andb; reflexivity.
Qed.

Lemma own_get_js_get (o : obj) (k : string) (v : jsval) :
  own_get o k = Some v -> js_get o k = v.
Proof. unfold js_get; intros ->; reflexivity. Qed.


Definition ex_tx (category : string) (amount : float) : Transaction.t :=
  Transaction.mk "1" amount expense category "2024-01-10" "".

Definition expenses_state (l : list Transaction.t) : BudgetState :=
  mkState l [] [].


(** * The pages *)

(** ** [Array.prototype.sort] with a comparator

    Since ES2019 [sort] is stable, and for a consistent comparator its
    result is the one of a stable insertion sort, which is what is written
    here: [x] goes before [y] exactly when [SortCompare(x, y) < 0], where
    [SortCompare] reads a [NaN] comparator result as [+0]. For an
    inconsistent comparator the order is implementation-defined, and only
    the permutation property below is relied on. *)

Fixpoint insert_by {A} (cmp : A -> A -> float) (x : A) (l : list A) : list A :=
  match l with
  | [] => [x]
  | y :: r => if (sort_compare (cmp x y) <? 0)%float then x :: y :: r
              else y :: insert_by cmp x r
  end.

Definition js_sort {A} (cmp : A -> A -> float) (l : list A) : list A :=
  fold_left (fun acc x => insert_by cmp x acc) l [].

Lemma insert_by_perm {A} (cmp : A -> A -> float) (x : A) (l : list A) :
  Permutation (insert_by cmp x l) (x :: l).
Proof.
  induction l as [|y r IH]; simpl; [reflexivity|].
  destruct (sort_compare (cmp x y) <? 0)%float; [reflexivity|].
  rewrite IH; apply perm_swap.
Qed.

Lemma js_sort_perm {A} (cmp : A -> A -> float) (l : list A) :
  Permutation (js_sort cmp l) l.
Proof.
  unfold js_sort.
  assert (forall acc, Permutation (fold_left (fun acc x => insert_by cmp x acc) l acc)
                        (l ++ acc)) as H.
  { induction l as [|x r IH]; intros acc; simpl; [reflexivity|].
    rewrite IH, insert_by_perm; symmetry; apply Permutation_middle. }
  rewrite H, app_nil_r; reflexivity.
Qed.

Section SortByKey.

(** A comparator that agrees, on the elements satisfying [P], with the
    order of the keys [K]. *)
Context {A : Type} (P : A -> Prop) (K : A -> Z * Z) (cmp : A -> A -> float).
Hypothesis cmp_key :
  forall a b, P a -> P b -> (sort_compare (cmp a b) <? 0)%float = kltb (K a) (K b).

Let R (a b : A) : Prop := ~ klt (K b) (K a).

Lemma insert_by_sorted (x : A) (l : list A) :
  P x -> Forall P l -> Sorted R l -> Sorted R (insert_by cmp x l).
Proof.
  intros Px; induction l as [|y r IH]; intros Fl S; simpl; [repeat constructor|].
  inversion Fl as [|? ? Py Fr]; subst.
  destruct (sort_compare (cmp x y) <? 0)%float eqn:E; rewrite cmp_key in E by assumption.
  - apply kltb_iff in E; constructor; [exact S|constructor].
    unfold R; intros H; exact (klt_irrefl _ (klt_trans _ _ _ E H)).
  - assert (R y x) as Hyx.
    { unfold R; intros H; apply kltb_iff in H; congruence. }
    apply Sorted_inv in S as [Sr Hr]; constructor; [apply IH; assumption|].
    destruct r as [|z r']; simpl; [constructor; exact Hyx|].
    inversion Fr; subst.
    destruct (sort_compare (cmp x z) <? 0)%float; constructor; [exact Hyx|].
    inversion Hr; assumption.
Qed.

Lemma js_sort_sorted (l : list A) : Forall P l -> Sorted R (js_sort cmp l).
Proof.
  unfold js_sort; intros Fl.
  assert (Sorted R [] /\ Forall P []) as [S0 F0] by (split; constructor); revert S0 F0.
  generalize (@nil A) as acc; induction l as [|x r IH]; intros acc S Fa; simpl; [exact S|].
  inversion Fl; subst.
  apply IH; [assumption|apply insert_by_sorted; assumption|].
  eapply Permutation_Forall; [symmetry; apply insert_by_perm|constructor; assumption].
Qed.

End SortByKey.

Definition kneg (a : Z * Z) : Z * Z := (- fst a, - snd a).

Lemma kltb_kneg a b : kltb (kneg a) (kneg b) = kltb b a.
Proof.
  apply eq_true_iff_eq; rewrite !kltb_iff; unfold klt, kneg; cbn [fst snd]; lia.
Qed.

Lemma nnan_leb x y : nnan x = true -> nnan y = true ->
  (x <=? y)%float = true <-> ~ klt (fk y) (fk x).
Proof. intros Hx Hy; rewrite leb_fk by assumption; apply kleb_iff. Qed.

Lemma klt_kneg a b : klt (kneg a) (kneg b) <-> klt b a.
Proof. unfold klt, kneg; cbn [fst snd]; lia. Qed.

Lemma Sorted_mono_on {A} (P : A -> Prop) (R R' : A -> A -> Prop) (l : list A) :
  (forall a b, P a -> P b -> R a b -> R' a b) -> Forall P l -> Sorted R l -> Sorted R' l.
Proof.
  intros H Fl S; induction S as [|a l S IH Hd]; constructor.
  - apply IH; inversion Fl; assumption.
  - destruct Hd as [|b l' Hab]; constructor.
    inversion Fl as [|? ? Pa Fl']; subst; inversion Fl'; subst; apply H; assumption.
Qed.

(** ** Transactions page (src/src/pages/Transactions.tsx, lines 18-51) *)

Inductive FilterType := filter_all | filter_income | filter_expense.
Inductive SortBy := sort_date | sort_amount.
Inductive SortOrder := asc | desc.

Section TransactionsPage.

(** [String.prototype.toLowerCase] and [new Date(s).getTime()] ([NaN] for
    an Invalid Date), builtins of the JS runtime, are left as parameters. *)
Variable toLowerCase : string -> string.
Variable Date_getTime : string -> float.

(** [s.includes(sub)] *)
Definition includes (s sub : string) : bool :=
  match String.index 0 sub s with Some _ => true | None => false end.

Definition search_match (searchTerm : string) (t : Transaction.t) : bool :=
  includes (toLowerCase (Transaction.description t)) (toLowerCase searchTerm)
  || includes (toLowerCase (Transaction.category t)) (toLowerCase searchTerm).

Definition type_match (filterType : FilterType) (t : Transaction.t) : bool :=
  match filterType with
  | filter_all => true
  | filter_income => TxType_eqb (Transaction.type t) income
  | filter_expense => TxType_eqb (Transaction.type t) expense
  end.

Definition tx_comparator (sortBy : SortBy) (sortOrder : SortOrder)
  (a b : Transaction.t) : float :=
  let comparison :=
    match sortBy with
    | sort_date =>
        (Date_getTime (Transaction.date a) - Date_getTime (Transaction.date b))%float
    | sort_amount => (Transaction.amount a - Transaction.amount b)%float
    end in
  match sortOrder with asc => comparison | desc => (- comparison)%float end.

(** The memo of lines 18-51: each active filter replaces [filtered] by a
    filtered copy, and [filtered.sort] sorts it in place and is returned.
    (When no filter is active, [filtered] is the store's own array, which
    the sort reorders; that side effect is not part of this model.) *)
Definition filteredAndSortedTransactions (transactions : list Transaction.t)
  (searchTerm : string) (filterType : FilterType) (filterCategory : string)
  (sortBy : SortBy) (sortOrder : SortOrder) : list Transaction.t :=
  let filtered := transactions in
  let filtered :=
    if String.eqb searchTerm "" then filtered
    else filter (search_match searchTerm) filtered in
  let filtered :=
    match filterType with
    | filter_all => filtered
    | _ => filter (type_match filterType) filtered
    end in
  let filtered :=
    if String.eqb filterCategory "" then filtered
    else filter (fun t => String.eqb (Transaction.category t) filterCategory) filtered in
  js_sort (tx_comparator sortBy sortOrder) filtered.

Definition sort_key (sortBy : SortBy) (t : Transaction.t) : float :=
  match sortBy with
  | sort_date => Date_getTime (Transaction.date t)
  | sort_amount => Transaction.amount t
  end.

(** The transactions the active filters keep, in list order. *)
Definition passes_filters (searchTerm : string) (filterType : FilterType)
  (filterCategory : string) (t : Transaction.t) : bool :=
  (String.eqb searchTerm "" || search_match searchTerm t) &&
  type_match filterType t &&
  (String.eqb filterCategory "" || String.eqb (Transaction.category t) filterCategory).

Lemma filter_true {A} (l : list A) : filter (fun _ => true) l = l.
Proof. induction l as [|x r IH]; simpl; [reflexivity|rewrite IH; reflexivity]. Qed.

Lemma filter_if {A} (b : bool) (f : A -> bool) (l : list A) :
  (if b then l else filter f l) = filter (fun x => b || f x) l.
Proof. destruct b; simpl; [symmetry; apply filter_true|reflexivity]. Qed.

Lemma filters_kept (transactions : list Transaction.t) (searchTerm : string)
  (filterType : FilterType) (filterCategory : string) :
  (let filtered := transactions in
   let filtered :=
     if String.eqb searchTerm "" then filtered
     else filter (search_match searchTerm) filtered in
   let filtered :=
     match filterType with
     | filter_all => filtered
     | _ => filter (type_match filterType) filtered
     end in
   if String.eqb filterCategory "" then filtered
   else filter (fun t => String.eqb (Transaction.category t) filterCategory) filtered) =
  filter (passes_filters searchTerm filterType filterCategory) transactions.
Proof.
  cbv zeta; rewrite !filter_if.
  assert (forall l, match filterType with
                    | filter_all => l
                    | _ => filter (type_match filterType) l
                    end = filter (type_match filterType) l) as T.
  { intros l; destruct filterType; simpl; [symmetry; apply filter_true|reflexivity..]. }
  rewrite T, !filter_filter_andb; apply filter_ext; intros t.
  unfold passes_filters; rewrite andb_assoc; reflexivity.
Qed.

End TransactionsPage.

(** X1: the Transactions page shows a permutation of the transactions that
    pass the search, type and category filters. When no shown sort key (the
    amount, or the time value of the date) is [NaN], the list is ordered by
    that key: non-decreasing for [asc], non-increasing for [desc]. *)
Theorem filteredAndSorted_spec (toLowerCase : string -> string)
  (Date_getTime : string -> float) (transactions : list Transaction.t)
  (searchTerm : string) (filterType : FilterType) (filterCategory : string)
  (sortBy : SortBy) (sortOrder : SortOrder) :
  let shown := filteredAndSortedTransactions toLowerCase Date_getTime transactions
                 searchTerm filterType filterCategory sortBy sortOrder in
  let kept := filter (passes_filters toLowerCase searchTerm filterType filterCategory)
                transactions in
  let key := sort_key Date_getTime sortBy in
  Permutation shown kept /\
  ((forall t, In t kept -> (key t =? key t)%float = true) ->
   Sorted (fun a b => match sortOrder with
                      | asc => (key a <=? key b)%float = true
                      | desc => (key b <=? key a)%float = true
                      end) shown).
Proof.
  pose proof (filters_kept toLowerCase transactions searchTerm filterType filterCategory) as E.
  cbv zeta in E |- *; unfold filteredAndSortedTransactions; rewrite E.
  split; [apply js_sort_perm|intros Hk].
  set (kept := filter (passes_filters toLowerCase searchTerm filterType filterCategory)
                 transactions) in *.
  set (key := sort_key Date_getTime sortBy).
  set (P := fun t => nnan (key t) = true).
  assert (Forall P kept) as FK.
  { apply Forall_forall; intros t Ht; unfold P; rewrite <- eqb_self; apply Hk, Ht. }
  assert (Forall P (js_sort (tx_comparator Date_getTime sortBy sortOrder) kept)) as FS
    by (eapply Permutation_Forall; [symmetry; apply js_sort_perm|exact FK]).
  assert (forall a b, tx_comparator Date_getTime sortBy sortOrder a b =
                      match sortOrder with
                      | asc => (key a - key b)%float
                      | desc => (- (key a - key b))%float
                      end) as CK by (intros a b; destruct sortBy; reflexivity).
  destruct sortOrder.
  - eapply Sorted_mono_on; [|exact FS|].
    2: { apply (js_sort_sorted P (fun t => fk (key t))); [|exact FK].
         intros a b Pa Pb; rewrite CK; apply sub_cmp; assumption. }
    intros a b Pa Pb H; apply nnan_leb; assumption.
  - eapply Sorted_mono_on; [|exact FS|].
    2: { apply (js_sort_sorted P (fun t => kneg (fk (key t)))); [|exact FK].
         intros a b Pa Pb; rewrite CK, kltb_kneg; apply neg_sub_cmp; assumption. }
    intros a b Pa Pb H; apply nnan_leb; [assumption|assumption|].
    intros H'; apply H, klt_kneg, H'.
Qed.

Definition date_ms (s : string) : float :=
  if String.eqb s "2024-01-05" then 1704412800000%float
  else if String.eqb s "2024-01-10" then 1704844800000%float
  else nan.

Definition tx_on (id date : string) (amount : float) : Transaction.t :=
  Transaction.mk id amount expense "Food & Dining" date "lunch".

Lemma filteredAndSorted_spec_witness :
  Sorted (fun a b => (sort_key date_ms sort_date b <=? sort_key date_ms sort_date a)%float = true)
    (filteredAndSortedTransactions (fun s => s) date_ms
       [tx_on "1" "2024-01-05" 12; tx_on "2" "2024-01-10" 30] "" filter_all "" sort_date desc).
Proof.
  apply (proj2 (filteredAndSorted_spec (fun s => s) date_ms
       [tx_on "1" "2024-01-05" 12; tx_on "2" "2024-01-10" 30] "" filter_all "" sort_date desc)).
  intros t Ht; vm_compute in Ht; destruct Ht as [<-|[<-|[]]]; vm_compute; reflexivity.
Defined.

(** ** The expense fold over categories that are not Object.prototype keys *)

Lemma ordinary_not_proto (k : string) :
  is_object_prototype_key k = false -> k <> "__proto__"%string.
Proof. intros H ->; discriminate H. Qed.

Lemma in_cat_nonempty (l : list Transaction.t) (k : string) :
  (exists t, In t l /\ Transaction.category t = k) ->
  exists t r, filter (in_cat k) l = t :: r.
Proof.
  intros [t [Ht Hc]].
  destruct (filter (in_cat k) l) as [|t0 r0] eqn:E; [|eauto].
  assert (In t (filter (in_cat k) l)) as H'
    by (apply filter_In; split; [exact Ht|apply String.eqb_eq, Hc]).
  rewrite E in H'; destruct H'.
Qed.

Lemma fold_entries (Number_toString : float -> string) (l : list Transaction.t) :
  (forall t, In t l -> is_object_prototype_key (Transaction.category t) = false) ->
  (forall t, In t l -> (0 <? Transaction.amount t)%float = true) ->
  NoDup (map fst (fold_left (category_step Number_toString) l [])) /\
  (forall k v, In (k, v) (fold_left (category_step Number_toString) l []) <->
    (exists t, In t l /\ Transaction.category t = k) /\
    v = JNum (sum_amounts (filter (in_cat k) l))) /\
  (forall k, (exists t, In t l /\ Transaction.category t = k) ->
    (0 <? sum_amounts (filter (in_cat k) l))%float = true).
Proof.
  intros Ho Ha.
  set (o := fold_left (category_step Number_toString) l []).
  assert (NoDup (map fst o)) as ND by (apply fold_nodup; constructor).
  assert (forall k, (exists t, In t l /\ Transaction.category t = k) ->
     In k (map fst o) /\
     js_get o k = JNum (sum_amounts (filter (in_cat k) l)) /\
     (0 <? sum_amounts (filter (in_cat k) l))%float = true) as V.
  { intros k Hex. pose proof Hex as [t0 [Ht0 Hc0]].
    assert (is_object_prototype_key k = false) as Hk by (rewrite <- Hc0; apply Ho, Ht0).
    split; [apply fold_keys; right; split; [apply ordinary_not_proto, Hk|exact Hex]|].
    unfold o; rewrite fold_get by (apply ordinary_not_proto, Hk).
    change (js_get [] k) with (proto_lookup k); rewrite proto_lookup_ordinary by exact Hk.
    destruct (in_cat_nonempty l k Hex) as [t [r E]]; rewrite E.
    apply key_fold_undefined; rewrite <- E; intros t' Ht'.
    apply filter_In in Ht' as [Ht' _]; apply Ha, Ht'. }
  split; [exact ND|split; [intros k v; split|intros k Hex; apply V, Hex]].
  - intros Hin.
    assert (In k (map fst o)) as Hk
      by (apply in_map_iff; exists (k, v); split; [reflexivity|exact Hin]).
    apply fold_keys in Hk as [[]|[_ Hex]].
    destruct (V k Hex) as [_ [G _]].
    rewrite (own_get_js_get _ _ _ (in_own_get _ _ _ ND Hin)) in G.
    split; [exact Hex|exact G].
  - intros [Hex ->].
    destruct (V k Hex) as [Hk [G _]].
    destruct (own_get o k) as [v'|] eqn:O.
    + rewrite (own_get_js_get _ _ _ O) in G; subst v'; apply own_get_in, O.
    + apply own_get_none in O; contradiction.
Qed.

Lemma spentForCategory_in_cat (state : BudgetState) (k : string) :
  spentForCategory state k = sum_amounts (filter (in_cat k) (filter is_expense (transactions state))).
Proof. unfold spentForCategory, in_cat; rewrite filter_filter_andb; reflexivity. Qed.

(** ** Budget page (src/unnamed/part_001) *)


Section BudgetPage.

(** [Number.prototype.toString] and [Number(s)] for a string [s], builtins
    of the JS runtime. *)
Variable Number_toString : float -> string.
Variable StringToNumber : string -> float.

(** Lines 54-56; the caller passes the looked-up value, which the division
    converts to a number. *)
Definition getProgressPercentage (spent : jsval) (limit : float) : float :=
  Math_min ((to_number StringToNumber spent / limit) * 100)%float 100%float.

(** The percentage of one budget row, lines 210-213. *)
Definition budget_row_percentage (state : BudgetState) (budget : Budget.t) : float :=
  let expensesByCategory := getExpensesByCategory Number_toString state in
  let spent := js_or (js_get expensesByCategory (Budget.category budget)) (JNum 0) in
  getProgressPercentage spent (Budget.limit budget).


End BudgetPage.

(** [expensesByCategory[c] || 0] for a category [c] that is not an
    Object.prototype key and whose expense amounts are positive. *)
Lemma spent_lookup (Number_toString : float -> string) (state : BudgetState) (c : string) :
  is_object_prototype_key c = false ->
  (forall t, In t (transactions state) -> is_expense t = true ->
     Transaction.category t = c -> (0 <? Transaction.amount t)%float = true) ->
  js_or (js_get (getExpensesByCategory Number_toString state) c) (JNum 0) =
  JNum (spentForCategory state c).
Proof.
  intros Ho Ha.
  rewrite getExpensesByCategory_get by (apply ordinary_not_proto, Ho).
  rewrite proto_lookup_ordinary by exact Ho; unfold spentForCategory.
  destruct (filter (fun t => is_expense t && String.eqb (Transaction.category t) c)
              (transactions state)) as [|t l] eqn:E; [reflexivity|].
  assert (forall t', In t' (t :: l) -> (0 <? Transaction.amount t')%float = true) as Ha'.
  { rewrite <- E; intros t' Ht'; apply filter_In in Ht' as [Ht' H].
    apply andb_true_iff in H as [H1 H2]; apply Ha; [exact Ht'|exact H1|apply String.eqb_eq, H2]. }
  destruct (key_fold_undefined Number_toString t l Ha') as [-> P].
  unfold js_or; rewrite truthy_pos by exact P; reflexivity.
Qed.

(** X4: for a budget [b] that is the first one of its category, whose
    category is not an [Object.prototype] key and whose expenses have
    positive amounts, the percentage the Budget page shows for [b] equals
    [getBudgetProgress] of that category. *)
Theorem budget_page_matches_getBudgetProgress (Number_toString : float -> string)
  (StringToNumber : string -> float) (state : BudgetState) (b : Budget.t) :
  find (fun b' => String.eqb (Budget.category b') (Budget.category b)) (budgets state) = Some b ->
  is_object_prototype_key (Budget.category b) = false ->
  (forall t, In t (transactions state) -> is_expense t = true ->
     Transaction.category t = Budget.category b -> (0 <? Transaction.amount t)%float = true) ->
  budget_row_percentage Number_toString StringToNumber state b =
  getBudgetProgress state (Budget.category b).
Proof.
  intros Hf Ho Ha; unfold budget_row_percentage, getBudgetProgress.
  rewrite spent_lookup by assumption; rewrite Hf; reflexivity.
Qed.

Definition food_budget : Budget.t := Budget.mk "Food & Dining" 1000 (JNum 0).

Definition food_state : BudgetState :=
  mkState [tx_on "1" "2024-01-05" 500; tx_on "2" "2024-01-10" 300] [food_budget] [].

Lemma budget_page_matches_getBudgetProgress_witness :
  budget_row_percentage (fun _ => ""%string) (fun _ => nan) food_state food_budget =
  getBudgetProgress food_state (Budget.category food_budget).
Proof.
  apply budget_page_matches_getBudgetProgress; [reflexivity|reflexivity|].
  intros t Ht _ _; vm_compute in Ht; destruct Ht as [<-|[<-|[]]]; reflexivity.
Defined.



(** ** [Object.entries] *)

(** The array index a property key denotes: a canonical decimal numeral
    below [2^32 - 1]. *)
Definition digit_value (c : ascii) : option N :=
  let n := N_of_ascii c in
  if (48 <=? n)%N && (n <=? 57)%N then Some (n - 48)%N else None.

Fixpoint decimal_value (s : string) (acc : N) : option N :=
  match s with
  | EmptyString => Some acc
  | String c r =>
      match digit_value c with
      | Some d => decimal_value r (acc * 10 + d)%N
      | None => None
      end
  end.

Definition array_index (k : string) : option N :=
  match k with
  | EmptyString => None
  | String c r =>
      if Ascii.eqb c "0"%char then (if String.eqb r "" then Some 0%N else None)
      else match decimal_value k 0 with
           | Some n => if (n <? 4294967295)%N then Some n else None
           | None => None
           end
  end.

Definition is_index_key (kv : string * jsval) : bool :=
  match array_index (fst kv) with Some _ => true | None => false end.

Fixpoint insert_index (e : N * (string * jsval)) (l : list (N * (string * jsval)))
  : list (N * (string * jsval)) :=
  match l with
  | [] => [e]
  | e' :: r => if (fst e <? fst e')%N then e :: e' :: r else e' :: insert_index e r
  end.

Definition index_entries (o : obj) : list (N * (string * jsval)) :=
  fold_right (fun kv acc => match array_index (fst kv) with
                            | Some n => insert_index (n, kv) acc
                            | None => acc
                            end) [] o.

(** OrdinaryOwnPropertyKeys: the array-index keys in ascending numeric
    order, then the other string keys in the order they were created. *)
Definition Object_entries (o : obj) : list (string * jsval) :=
  map snd (index_entries o) ++ filter (fun kv => negb (is_index_key kv)) o.

Lemma Object_entries_example :
  Object_entries [("b", JNum 1); ("10", JNum 2); ("a", JNum 3); ("2", JNum 4); ("02", JNum 5)]%string
  = [("2", JNum 4); ("10", JNum 2); ("b", JNum 1); ("a", JNum 3); ("02", JNum 5)]%string.
Proof. vm_compute; reflexivity. Qed.

Lemma insert_index_perm e l : Permutation (insert_index e l) (e :: l).
Proof.
  induction l as [|e' r IH]; simpl; [reflexivity|].
  destruct (fst e <? fst e')%N; [reflexivity|].
  rewrite IH; apply perm_swap.
Qed.

Lemma index_entries_perm (o : obj) :
  Permutation (map snd (index_entries o)) (filter is_index_key o).
Proof.
  induction o as [|kv r IH]; simpl; [reflexivity|].
  unfold is_index_key at 1; destruct (array_index (fst kv)); [|exact IH].
  rewrite (Permutation_map snd (insert_index_perm _ _)); simpl.
  apply perm_skip, IH.
Qed.

Lemma filter_partition_perm {A} (f : A -> bool) (l : list A) :
  Permutation (filter f l ++ filter (fun x => negb (f x)) l) l.
Proof.
  induction l as [|x r IH]; simpl; [reflexivity|].
  destruct (f x); simpl; [apply perm_skip, IH|].
  rewrite <- Permutation_middle; apply perm_skip, IH.
Qed.

Lemma Object_entries_perm (o : obj) : Permutation (Object_entries o) o.
Proof.
  unfold Object_entries; rewrite index_entries_perm; apply filter_partition_perm.
Qed.

(** ** Pie chart entries *)

Record PieEntry := mkPie { pie_name : string; pie_value : jsval; pie_color : string }.

(** [categoryData?.color || '#6B7280'] *)
Definition color_or_default (c : option Category.t) : string :=
  match c with
  | Some c => if String.eqb (Category.color c) "" then "#6B7280"%string else Category.color c
  | None => "#6B7280"%string
  end.

(** The [map] of [Object.entries(...)] to chart entries, as both pages write it. *)
Definition to_pie_entries (state : BudgetState) (o : obj) : list PieEntry :=
  map (fun '(category, amount) =>
         mkPie category amount
           (color_or_default
              (find (fun c => String.eqb (Category.name c) category) (categories state))))
    (Object_entries o).

Lemma to_pie_entries_in (state : BudgetState) (o : obj) (e : PieEntry) :
  In e (to_pie_entries state o) -> In (pie_name e, pie_value e) o.
Proof.
  unfold to_pie_entries; intros H; apply in_map_iff in H as [[k v] [<- H]].
  simpl; eapply Permutation_in; [apply Object_entries_perm|exact H].
Qed.

Lemma in_to_pie_entries (state : BudgetState) (o : obj) (k : string) (v : jsval) :
  In (k, v) o -> exists e, In e (to_pie_entries state o) /\ pie_name e = k /\ pie_value e = v.
Proof.
  intros H; unfold to_pie_entries.
  eexists; split; [apply in_map_iff; exists (k, v); split; [reflexivity|]|split; reflexivity].
  eapply Permutation_in; [symmetry; apply Object_entries_perm|exact H].
Qed.

Lemma to_pie_entries_names (state : BudgetState) (o : obj) :
  Permutation (map pie_name (to_pie_entries state o)) (map fst o).
Proof.
  unfold to_pie_entries; rewrite map_map.
  rewrite (map_ext _ fst) by (intros [k v]; reflexivity).
  apply Permutation_map, Object_entries_perm.
Qed.

(** ** Dashboard (src/src/pages/Dashboard.tsx) *)

Section Dashboard.

Variable Number_toString : float -> string.
Variable StringToNumber : string -> float.

(** Lines 22-29. *)
Definition pieChartData (state : BudgetState) : list PieEntry :=
  to_pie_entries state (getExpensesByCategory Number_toString state).

(** The "Largest Expense Category" tile, lines 237-240. *)
Definition largestExpenseCategory (state : BudgetState) : string :=
  match pieChartData state with
  | [] => "None"%string
  | p :: ps =>
      pie_name (fold_left (fun prev current =>
                             if js_gt StringToNumber (pie_value prev) (pie_value current)
                             then prev else current) ps p)
  end.

End Dashboard.

Lemma klt_not_trans a b c : ~ klt b a -> ~ klt c b -> ~ klt c a.
Proof. unfold klt; lia. Qed.

Lemma js_gt_num (StringToNumber : string -> float) (x y : float) :
  js_gt StringToNumber (JNum x) (JNum y) = (y <? x)%float.
Proof. reflexivity. Qed.

Lemma reduce_max (StringToNumber : string -> float) (f : PieEntry -> float)
  (ps : list PieEntry) (p : PieEntry) :
  (forall e, In e (p :: ps) -> pie_value e = JNum (f e) /\ nnan (f e) = true) ->
  let r := fold_left (fun prev current =>
                        if js_gt StringToNumber (pie_value prev) (pie_value current)
                        then prev else current) ps p in
  In r (p :: ps) /\ forall e, In e (p :: ps) -> ~ klt (fk (f r)) (fk (f e)).
Proof.
  cbv zeta; revert p; induction ps as [|c ps IH]; intros p Hg; simpl.
  - split; [left; reflexivity|intros e [<-|[]]; apply klt_irrefl].
  - destruct (Hg p (or_introl eq_refl)) as [Vp Np].
    destruct (Hg c (or_intror (or_introl eq_refl))) as [Vc Nc].
    rewrite Vp, Vc, js_gt_num, ltb_fk by assumption.
    destruct (kltb (fk (f c)) (fk (f p))) eqn:E.
    + apply kltb_iff in E.
      destruct (IH p) as [Hin Hmax].
      { intros e [<-|He]; apply Hg; simpl; auto. }
      split; [destruct Hin as [<-|Hin]; simpl; auto|].
      intros e [<-|[<-|He]]; [apply Hmax; left; reflexivity| |apply Hmax; right; exact He].
      intros H; apply (Hmax p (or_introl eq_refl)); exact (klt_trans _ _ _ H E).
    + assert (~ klt (fk (f c)) (fk (f p))) as E' by (intros H; apply kltb_iff in H; congruence).
      destruct (IH c) as [Hin Hmax].
      { intros e [<-|He]; apply Hg; simpl; auto. }
      split; [right; exact Hin|].
      intros e [<-|He]; [|apply Hmax; exact He].
      exact (klt_not_trans _ _ _ E' (Hmax c (or_introl eq_refl))).
Qed.

Lemma expenses_entries (Number_toString : float -> string) (state : BudgetState) :
  let expenses := filter is_expense (transactions state) in
  (forall t, In t expenses -> is_object_prototype_key (Transaction.category t) = false) ->
  (forall t, In t expenses -> (0 <? Transaction.amount t)%float = true) ->
  NoDup (map fst (getExpensesByCategory Number_toString state)) /\
  (forall k v, In (k, v) (getExpensesByCategory Number_toString state) <->
    (exists t, In t expenses /\ Transaction.category t = k) /\
    v = JNum (spentForCategory state k)) /\
  (forall k, (exists t, In t expenses /\ Transaction.category t = k) ->
    (0 <? spentForCategory state k)%float = true).
Proof.
  intros expenses Ho Ha; unfold getExpensesByCategory.
  destruct (fold_entries Number_toString expenses Ho Ha) as [ND [E P]].
  split; [exact ND|split; intros k; rewrite spentForCategory_in_cat; [apply E|apply P]].
Qed.

(** X7: when no expense category is an [Object.prototype] key and every
    expense amount is positive, the Dashboard's "Largest Expense Category"
    is "None" when there is no expense; otherwise it is the category of some
    expense, and its [spentForCategory] is at least that of every expense
    category. *)
Theorem largestExpenseCategory_spec (Number_toString : float -> string)
  (StringToNumber : string -> float) (state : BudgetState) :
  let expenses := filter is_expense (transactions state) in
  (forall t, In t expenses -> is_object_prototype_key (Transaction.category t) = false) ->
  (forall t, In t expenses -> (0 <? Transaction.amount t)%float = true) ->
  let r := largestExpenseCategory Number_toString StringToNumber state in
  (expenses = [] -> r = "None"%string) /\
  (expenses <> [] ->
   (exists t, In t expenses /\ Transaction.category t = r) /\
   forall t, In t expenses ->
     (spentForCategory state (Transaction.category t) <=? spentForCategory state r)%float = true).
Proof.
  intros expenses Ho Ha r.
  destruct (expenses_entries Number_toString state Ho Ha) as [_ [Ent Pos]].
  fold expenses in Ent, Pos.
  split.
  - intros E; unfold r, largestExpenseCategory, pieChartData, getExpensesByCategory.
    fold expenses; rewrite E; reflexivity.
  - intros NE.
    set (f := fun e => spentForCategory state (pie_name e)).
    assert (forall e, In e (pieChartData Number_toString state) ->
              (exists t, In t expenses /\ Transaction.category t = pie_name e) /\
              pie_value e = JNum (f e) /\ nnan (f e) = true) as G.
    { intros e He; apply to_pie_entries_in, Ent in He as [H1 H2].
      repeat split; [exact H1|exact H2|apply pos_nnan, Pos, H1]. }
    assert (forall t, In t expenses -> exists e, In e (pieChartData Number_toString state) /\
              pie_name e = Transaction.category t) as C.
    { intros t Ht.
      assert (In (Transaction.category t, JNum (spentForCategory state (Transaction.category t)))
                 (getExpensesByCategory Number_toString state)) as Hin
        by (apply Ent; split; [exists t; split; [exact Ht|reflexivity]|reflexivity]).
      destruct (in_to_pie_entries state _ _ _ Hin) as [e [He [Hn _]]].
      exists e; split; assumption. }
    destruct expenses as [|t0 l0] eqn:Ex; [contradiction|].
    destruct (C t0 (or_introl eq_refl)) as [e0 [He0 _]].
    unfold r, largestExpenseCategory.
    destruct (pieChartData Number_toString state) as [|p ps] eqn:PD; [destruct He0|].
    destruct (reduce_max StringToNumber f ps p) as [Hin Hmax];
      [intros e He; destruct (G e He) as [_ [H1 H2]]; split; assumption|].
    cbv zeta in Hin, Hmax.
    split; [apply (G _ Hin)|].
    intros t Ht; destruct (C t Ht) as [e [He Hn]].
    rewrite <- Hn; fold (f e).
    apply nnan_leb; [apply (G e He)|apply (G _ Hin)|apply Hmax, He].
Qed.

Definition dashboard_state : BudgetState :=
  expenses_state [ex_tx "Food & Dining" 500; ex_tx "Shopping" 900; ex_tx "Food & Dining" 300].

Lemma largestExpenseCategory_spec_witness :
  largestExpenseCategory (fun _ => ""%string) (fun _ => nan) dashboard_state = "Shopping"%string /\
  forall t, In t (filter is_expense (transactions dashboard_state)) ->
    (spentForCategory dashboard_state (Transaction.category t) <=?
     spentForCategory dashboard_state "Shopping")%float = true.
Proof.
  assert (forall t, In t (filter is_expense (transactions dashboard_state)) ->
            is_object_prototype_key (Transaction.category t) = false /\
            (0 <? Transaction.amount t)%float = true) as Hd
    by (intros t Ht; vm_compute in Ht; destruct Ht as [<-|[<-|[<-|[]]]]; split; reflexivity).
  destruct (largestExpenseCategory_spec (fun _ => ""%string) (fun _ => nan) dashboard_state)
    as [_ H]; [intros t Ht; apply (Hd t Ht)|intros t Ht; apply (Hd t Ht)|].
  assert (largestExpenseCategory (fun _ => ""%string) (fun _ => nan) dashboard_state
          = "Shopping"%string) as E by (vm_compute; reflexivity).
  rewrite E in H; split; [exact E|apply H; discriminate].
Defined.

(** ** Reports page (src/src/pages/Reports.tsx) *)

Definition two52 : float := 4503599627370496.

(** The floor of a double [0 <= x < 2^52]: [x + 2^52 - 2^52] is [x] rounded
    to the nearest integer. *)
Definition floor_small (x : float) : float :=
  let r := ((x + two52) - two52)%float in
  if (x <? r)%float then (r - 1)%float else r.

(** [ToIntegerOrInfinity] of a finite double, back as a double ([+0] for a
    zero result). A double of magnitude at least [2^52] is an integer. *)
Definition truncate (x : float) : float :=
  if (two52 <=? abs x)%float then x
  else if (x <? 0)%float then (0 - floor_small (- x))%float
  else floor_small x.

(** TimeClip, which [new Date(n)] applies to its number argument. *)
Definition TimeClip (t : float) : float :=
  if (abs t <=? 8640000000000000)%float then truncate t else nan.

Definition daysAgo (timeRange : TimeRange) : float :=
  match timeRange with
  | days7 => 7
  | days30 => 30
  | days90 => 90
  | year1 => 365
  end.

Section ReportsPage.

Variable Number_toString : float -> string.
Variable StringToNumber : string -> float.
(** [new Date(s).getTime()], and the time value of [new Date()]. *)
Variable Date_getTime : string -> float.
Variable now_ms : float.

(** Lines 17-29. [new Date(t.date) >= cutoffDate] compares the two time
    values, and is false when either is [NaN]. *)
Definition getFilteredTransactions (state : BudgetState) (timeRange : TimeRange)
  : list Transaction.t :=
  let cutoffDate := TimeClip (now_ms - daysAgo timeRange * 24 * 60 * 60 * 1000)%float in
  filter (fun t => (cutoffDate <=? Date_getTime (Transaction.date t))%float)
    (transactions state).

(** Lines 63-82. *)
Definition getCategoryData (state : BudgetState) (timeRange : TimeRange) : list PieEntry :=
  let filteredTransactions := getFilteredTransactions state timeRange in
  let categories := fold_left (category_step Number_toString)
                      (filter is_expense filteredTransactions) [] in
  js_sort (fun a b => (to_number StringToNumber (pie_value b) -
                       to_number StringToNumber (pie_value a))%float)
    (to_pie_entries state categories).

(** Lines 84-86. *)
Definition getTopCategories (state : BudgetState) (timeRange : TimeRange) : list PieEntry :=
  firstn 5 (getCategoryData state timeRange).

End ReportsPage.

Lemma StronglySorted_app_inv {A} (R : A -> A -> Prop) (l1 l2 : list A) :
  StronglySorted R (l1 ++ l2) ->
  StronglySorted R l1 /\ forall a b, In a l1 -> In b l2 -> R a b.
Proof.
  induction l1 as [|x r IH]; simpl; intros S.
  - split; [constructor|intros a b []].
  - apply StronglySorted_inv in S as [S Hx]; destruct (IH S) as [S1 C].
    split.
    + constructor; [exact S1|].
      eapply incl_Forall; [|exact Hx]; intros y Hy; apply in_or_app; left; exact Hy.
    + intros a b [<-|Ha] Hb; [|apply C; assumption].
      eapply Forall_forall in Hx; [exact Hx|apply in_or_app; right; exact Hb].
Qed.

Lemma NoDup_app_l {A} (l1 l2 : list A) : NoDup (l1 ++ l2) -> NoDup l1.
Proof.
  induction l1 as [|x r IH]; simpl; intros H; [constructor|].
  inversion H as [|? ? Hx Hr]; subst; constructor; [|apply IH, Hr].
  intros Hin; apply Hx, in_or_app; left; exact Hin.
Qed.

(** X10: when every expense of the time window has a category that is not
    an [Object.prototype] key and a positive amount, the Reports page's top
    categories are at most five entries with distinct names. Each is a
    category of the window, with the double sum of its amounts as value.
    They are in non-increasing order of that sum. When a category of the
    window is left out, five entries are shown, each with a sum at least
    the left-out one's. *)
Theorem topCategories_spec (Number_toString : float -> string)
  (StringToNumber : string -> float) (Date_getTime : string -> float) (now_ms : float)
  (state : BudgetState) (timeRange : TimeRange) :
  let window := filter is_expense
                  (getFilteredTransactions Date_getTime now_ms state timeRange) in
  let total c := sum_amounts (filter (in_cat c) window) in
  (forall t, In t window -> is_object_prototype_key (Transaction.category t) = false) ->
  (forall t, In t window -> (0 <? Transaction.amount t)%float = true) ->
  let top := getTopCategories Number_toString StringToNumber Date_getTime now_ms
               state timeRange in
  (length top <= 5)%nat /\
  NoDup (map pie_name top) /\
  (forall e, In e top ->
     (exists t, In t window /\ Transaction.category t = pie_name e) /\
     pie_value e = JNum (total (pie_name e))) /\
  Sorted (fun a b => (total (pie_name b) <=? total (pie_name a))%float = true) top /\
  (forall t, In t window -> ~ In (Transaction.category t) (map pie_name top) ->
     length top = 5%nat /\
     forall e, In e top -> (total (Transaction.category t) <=? total (pie_name e))%float = true).
Proof.
  intros window total Ho Ha top.
  destruct (fold_entries Number_toString window Ho Ha) as [ND [Ent Pos]].
  set (o := fold_left (category_step Number_toString) window []) in *.
  set (cmp := fun a b => (to_number StringToNumber (pie_value b) -
                          to_number StringToNumber (pie_value a))%float).
  set (data := js_sort cmp (to_pie_entries state o)).
  assert (top = firstn 5 data) as Etop by reflexivity.
  set (P := fun e => (exists t, In t window /\ Transaction.category t = pie_name e) /\
                     pie_value e = JNum (total (pie_name e)) /\ nnan (total (pie_name e)) = true).
  assert (forall e, In e data -> P e) as G.
  { intros e He; apply (Permutation_in _ (js_sort_perm _ _)), to_pie_entries_in, Ent in He.
    destruct He as [H1 H2]; split; [exact H1|split; [exact H2|apply pos_nnan, Pos, H1]]. }
  set (K := fun e => kneg (fk (to_number StringToNumber (pie_value e)))).
  set (R := fun a b => ~ klt (K b) (K a)).
  assert (Sorted R data) as S.
  { apply (js_sort_sorted P K cmp).
    - intros a b [_ [Va Na]] [_ [Vb Nb]]; unfold cmp, K; rewrite Va, Vb, kltb_kneg.
      apply sub_cmp; assumption.
    - apply Forall_forall; intros e He; apply G.
      eapply Permutation_in; [symmetry; apply js_sort_perm|exact He]. }
  assert (forall a b, In a data -> In b data -> R a b ->
            (total (pie_name b) <=? total (pie_name a))%float = true) as RL.
  { intros a b Ha' Hb' H; destruct (G a Ha') as [_ [Va Na]]; destruct (G b Hb') as [_ [Vb Nb]].
    apply nnan_leb; [exact Nb|exact Na|].
    intros H'; apply H; unfold K; rewrite Va, Vb; apply klt_kneg, H'. }
  assert (StronglySorted R data) as SS.
  { apply Sorted_StronglySorted; [|exact S].
    intros a b c Hab Hbc; unfold R in *; exact (klt_not_trans _ _ _ Hab Hbc). }
  pose proof (firstn_skipn 5 data) as FS.
  rewrite <- FS in SS; apply StronglySorted_app_inv in SS as [S1 Cross].
  assert (forall e, In e top -> In e data) as Td
    by (intros e He; rewrite <- FS; apply in_or_app; left; rewrite <- Etop; exact He).
  split; [rewrite Etop; apply firstn_le_length|].
  split.
  { assert (NoDup (map pie_name data)) as NDd.
    { eapply Permutation_NoDup; [|exact ND].
      unfold data; rewrite (Permutation_map pie_name (js_sort_perm cmp _)); symmetry.
      apply to_pie_entries_names. }
    rewrite <- FS, map_app in NDd; rewrite Etop; exact (NoDup_app_l _ _ NDd). }
  split; [intros e He; destruct (G e (Td e He)) as [H1 [H2 _]]; split; assumption|].
  split.
  { rewrite Etop; apply StronglySorted_Sorted in S1.
    eapply Sorted_mono_on; [|apply Forall_forall; intros e He; exact He|exact S1].
    intros a b Ha' Hb' H; apply RL; [apply Td; rewrite Etop; exact Ha'
                                    |apply Td; rewrite Etop; exact Hb'|exact H]. }
  intros t Ht Hn.
  assert (In (Transaction.category t, JNum (total (Transaction.category t))) o) as Hin
    by (apply Ent; split; [exists t; split; [exact Ht|reflexivity]|reflexivity]).
  destruct (in_to_pie_entries state _ _ _ Hin) as [x [Hx [Hxn _]]].
  apply (Permutation_in _ (Permutation_sym (js_sort_perm cmp _))) in Hx; fold data in Hx.
  assert (In x (skipn 5 data)) as Hs.
  { rewrite <- FS in Hx; apply in_app_or in Hx as [Hx|Hx]; [|exact Hx].
    exfalso; apply Hn; rewrite <- Hxn; apply in_map; rewrite Etop; exact Hx. }
  split.
  - rewrite Etop, length_firstn.
    assert (length (skipn 5 data) <> 0%nat) by (destruct (skipn 5 data); [destruct Hs|discriminate]).
    rewrite length_skipn in H; lia.
  - intros e He; rewrite <- Hxn.
    apply RL; [apply Td, He|rewrite <- FS; apply in_or_app; right; exact Hs|].
    apply Cross; [rewrite <- Etop; exact He|exact Hs].
Qed.

Definition report_date (s : string) : float :=
  if String.eqb s "2024-01-05" then 1704412800000%float
  else if String.eqb s "2023-01-01" then 1672531200000%float
  else nan.

Definition report_tx (ty : TxType) (category date : string) (amount : float) : Transaction.t :=
  Transaction.mk "r" amount ty category date "".

Definition report_state : BudgetState :=
  mkState
    [report_tx expense "Food & Dining" "2024-01-05" 500;
     report_tx expense "Shopping" "2024-01-05" 900;
     report_tx expense "Transportation" "2024-01-05" 200;
     report_tx income "Salary" "2024-01-05" 5000;
     report_tx expense "Entertainment" "2024-01-05" 150;
     report_tx expense "Bills & Utilities" "2024-01-05" 1200;
     report_tx expense "Healthcare" "2024-01-05" 100;
     report_tx expense "Food & Dining" "2024-01-05" 300;
     report_tx expense "Other" "2023-01-01" 5000] [] [].

(** Ten days before the snapshot's "now", with a 30-day range. *)
Lemma topCategories_spec_witness :
  let N := fun _ : float => ""%string in
  let S := fun _ : string => nan in
  let now := 1704844800000%float in
  map pie_name (getTopCategories N S report_date now report_state days30) =
    ["Bills & Utilities"; "Shopping"; "Food & Dining"; "Transportation"; "Entertainment"]%string /\
  (let window := filter is_expense (getFilteredTransactions report_date now report_state days30) in
   let total c := sum_amounts (filter (in_cat c) window) in
   let top := getTopCategories N S report_date now report_state days30 in
   (length top <= 5)%nat /\
   NoDup (map pie_name top) /\
   (forall e, In e top ->
      (exists t, In t window /\ Transaction.category t = pie_name e) /\
      pie_value e = JNum (total (pie_name e))) /\
   Sorted (fun a b => (total (pie_name b) <=? total (pie_name a))%float = true) top /\
   (forall t, In t window -> ~ In (Transaction.category t) (map pie_name top) ->
      length top = 5%nat /\
      forall e, In e top -> (total (Transaction.category t) <=? total (pie_name e))%float = true)).
Proof.
  intros N S now; split; [vm_compute; reflexivity|].
  apply topCategories_spec;
    intros t Ht; vm_compute in Ht;
    repeat (destruct Ht as [<-|Ht]; [reflexivity|]); destruct Ht.
Defined.

End Js.
